(** * Statistic.h: a one-pass statistics accumulator

    Shallow embedding of [stat::Statistic<T, C, _useStdDev>] (Statistic.h,
    version 0.4.4) and the properties of its behaviour.

    The class template is generic in the sample type [T] (a floating-point
    type), in the counter type [C] (an unsigned integer type) and in the
    compile-time flag [_useStdDev].  The embedding keeps the three
    parameters:
    - [T] is any type with an instance of [floating_point]; the instances
      are IEEE 754 binary formats ([ieee prec emax], over the Standard
      Library's [spec_float]) and exact arithmetic over the reals ([exact]);
    - [C] is given by its width [count_bits]; the counter is a [Z] and
      [_cnt++] wraps modulo [2 ^ count_bits];
    - [_useStdDev] is a [bool] that selects the type of [_extra].

    The setters [ssqdif(value_type)] of the two helper structs are declared
    to return a [value_type] and have no [return] statement.  Control that
    reaches the end of such a function is undefined behaviour, so a call of
    [add] that executes the setter has no defined result: [add] returns an
    [outcome]. *)

From Stdlib Require Import ZArith List Bool Lia.
From Stdlib Require Import SpecFloat.
From Stdlib Require Import Reals Lra.
From Stdlib Require Import Permutation.
Import ListNotations.

Local Open Scope Z_scope.

(** ** The arithmetic of the sample type *)

(** What Statistic.h uses of [T]: the quiet NaN, the conversion of an
    integer (the literal [0] and the counter in mixed expressions), the four
    operations, [std::sqrt] and [operator<]. *)
Class floating_point (T : Type) : Type := {
  NaN : T;
  of_int : Z -> T;
  plus : T -> T -> T;
  minus : T -> T -> T;
  times : T -> T -> T;
  divide : T -> T -> T;
  sqrt : T -> T;
  less : T -> T -> bool
}.

(** [a > b] is [b < a]. *)
Definition greater {T} `{floating_point T} (a b : T) : bool := less b a.

(** IEEE 754 binary arithmetic with [prec] bits of mantissa and infinities
    at exponent [emax], rounding to nearest, ties to even. *)
Definition ieee (prec emax : Z) : floating_point spec_float := {|
  NaN := S754_nan;
  of_int := fun n => binary_normalize prec emax n 0 false;
  plus := SFadd prec emax;
  minus := SFsub prec emax;
  times := SFmul prec emax;
  divide := SFdiv prec emax;
  sqrt := SFsqrt prec emax;
  less := SFltb
|}.

(** [float] and [double]. *)
Definition binary32 : floating_point spec_float := ieee 24 128.
Definition binary64 : floating_point spec_float := ieee 53 1024.

Definition is_nan (x : spec_float) : bool :=
  match x with S754_nan => true | _ => false end.

Definition is_finite (x : spec_float) : bool :=
  match x with S754_zero _ | S754_finite _ _ _ => true | _ => false end.

(** A positive finite number. *)
Definition is_positive (x : spec_float) : bool :=
  match x with S754_finite false _ _ => true | _ => false end.

(** Not NaN, with sign bit [sx]. *)
Definition has_sign (sx : bool) (x : spec_float) : Prop :=
  match x with
  | S754_nan => False
  | S754_zero s | S754_infinity s | S754_finite s _ _ => s = sx
  end.

(** Exact arithmetic: a real number, or the undefined value that stands for
    NaN (a division by zero, the root of a negative number). *)
Inductive exact : Type :=
| Undefined
| Real (r : R).

Definition exact_lift2 (f : R -> R -> R) (a b : exact) : exact :=
  match a, b with
  | Real x, Real y => Real (f x y)
  | _, _ => Undefined
  end.

Definition exact_divide (a b : exact) : exact :=
  match a, b with
  | Real x, Real y =>
      if Req_EM_T y 0 then Undefined else Real (x / y)
  | _, _ => Undefined
  end.

Definition exact_sqrt (a : exact) : exact :=
  match a with
  | Real x => if Rlt_dec x 0 then Undefined else Real (R_sqrt.sqrt x)
  | Undefined => Undefined
  end.

Definition exact_less (a b : exact) : bool :=
  match a, b with
  | Real x, Real y => if Rlt_dec x y then true else false
  | _, _ => false
  end.

#[export] Instance exact_arith : floating_point exact := {|
  NaN := Undefined;
  of_int := fun n => Real (IZR n);
  plus := exact_lift2 Rplus;
  minus := exact_lift2 Rminus;
  times := exact_lift2 Rmult;
  divide := exact_divide;
  sqrt := exact_sqrt;
  less := exact_less
|}.

(** ** Calls that may not be defined *)

(** What a call does: it returns, or its behaviour is undefined. *)
Inductive outcome (A : Type) : Type :=
| Returns (a : A)
| Undefined_behaviour.

Arguments Returns {A} a.
Arguments Undefined_behaviour {A}.

(** Sequencing: nothing is defined after undefined behaviour. *)
Definition bind {A B : Type} (o : outcome A) (k : A -> outcome B) : outcome B :=
  match o with
  | Returns a => k a
  | Undefined_behaviour => Undefined_behaviour
  end.

Notation "x <- o ;; k" := (bind o (fun x => k))
  (at level 61, o at next level, right associativity).

(** Control reaches the end of a value-returning function that has no
    [return] statement: undefined behaviour, whatever [state] the body had
    computed. *)
Definition flows_off_the_end {A : Type} (state : A) : outcome A :=
  Undefined_behaviour.

(** ** namespace stat *)

Module stat.

Section Statistic.

(** The template parameters. *)
Context {T : Type} {fp : floating_point T}.
Variable count_bits : Z.
Variable _useStdDev : bool.

(** [std::conditional<B, X, Y>::type]. *)
Definition conditional (B : bool) (X Y : Type) : Type := if B then X else Y.

(** [struct Empty]: no member; [ssqdif()] is NaN; [ssqdif(v)] has an empty
    body and no [return]. *)
Inductive Empty : Type := Build_Empty.

Definition Empty_clear (e : Empty) : Empty := e.
Definition Empty_ssqdif (e : Empty) : T := NaN.
Definition Empty_ssqdif_set (v : T) (e : Empty) : outcome Empty :=
  flows_off_the_end e.

(** [struct StdDev]: the sum of squares difference; [ssqdif(v)] is
    [{ _ssqdif = v; }], with no [return]. *)
Record StdDev : Type := Build_StdDev { _ssqdif : T }.

Definition StdDev_default : StdDev := Build_StdDev (of_int 0).
Definition StdDev_clear (e : StdDev) : StdDev := Build_StdDev (of_int 0).
Definition StdDev_ssqdif (e : StdDev) : T := _ssqdif e.
Definition StdDev_ssqdif_set (v : T) (e : StdDev) : outcome StdDev :=
  let e := Build_StdDev v in
  flows_off_the_end e.

(** The type of [_extra]:
    [std::conditional<_useStdDev, StdDev, Empty>::type]. *)
Definition extra_type : Type := conditional _useStdDev StdDev Empty.

(** [_extra], default-initialised. *)
Definition extra_default : extra_type :=
  match _useStdDev as b return conditional b StdDev Empty with
  | true => StdDev_default
  | false => Build_Empty
  end.

(** [_extra.clear()]. *)
Definition extra_clear : extra_type -> extra_type :=
  match _useStdDev as b
        return conditional b StdDev Empty -> conditional b StdDev Empty with
  | true => StdDev_clear
  | false => Empty_clear
  end.

(** [_extra.ssqdif()]. *)
Definition ssqdif : extra_type -> T :=
  match _useStdDev as b return conditional b StdDev Empty -> T with
  | true => StdDev_ssqdif
  | false => Empty_ssqdif
  end.

(** [_extra.ssqdif(v)]. *)
Definition ssqdif_set (v : T) : extra_type -> outcome extra_type :=
  match _useStdDev as b
        return conditional b StdDev Empty ->
               outcome (conditional b StdDev Empty) with
  | true => StdDev_ssqdif_set v
  | false => Empty_ssqdif_set v
  end.

(** The data members. *)
Record Statistic : Type := Build_Statistic {
  _cnt : Z;
  _sum : T;
  _min : T;
  _max : T;
  _extra : extra_type
}.

Definition set_cnt (c : Z) (s : Statistic) : Statistic :=
  Build_Statistic c (_sum s) (_min s) (_max s) (_extra s).
Definition set_sum (v : T) (s : Statistic) : Statistic :=
  Build_Statistic (_cnt s) v (_min s) (_max s) (_extra s).
Definition set_min (v : T) (s : Statistic) : Statistic :=
  Build_Statistic (_cnt s) (_sum s) v (_max s) (_extra s).
Definition set_max (v : T) (s : Statistic) : Statistic :=
  Build_Statistic (_cnt s) (_sum s) (_min s) v (_extra s).
Definition set_extra (e : extra_type) (s : Statistic) : Statistic :=
  Build_Statistic (_cnt s) (_sum s) (_min s) (_max s) e.

(** [Statistic() = default], with the default member initialisers. *)
Definition Statistic_default : Statistic :=
  Build_Statistic 0 (of_int 0) (of_int 0) (of_int 0) extra_default.

(** [void clear()]. *)
Definition clear (s : Statistic) : Statistic :=
  let s := set_cnt 0 s in
  let s := set_sum (of_int 0) s in
  let s := set_min (of_int 0) s in
  let s := set_max (of_int 0) s in
  set_extra (extra_clear (_extra s)) s.

(** [value_type add(const value_type value)]: the returned value and the
    new state, when the call is defined. *)
Definition add (value : T) (s : Statistic) : outcome (T * Statistic) :=
  let previousSum := _sum s in
  let s :=
    if _cnt s =? 0 then set_max value (set_min value s)
    else if less value (_min s) then set_min value s
    else if greater value (_max s) then set_max value s
    else s in
  let s := set_sum (plus (_sum s) value) s in
  let s := set_cnt ((_cnt s + 1) mod 2 ^ count_bits) s in
  s <- (if _useStdDev && (1 <? _cnt s) then
          let _store := minus (divide (_sum s) (of_int (_cnt s))) value in
          e <- ssqdif_set
                 (plus (ssqdif (_extra s))
                    (divide (times (times (of_int (_cnt s)) _store) _store)
                       (of_int (_cnt s - 1))))
                 (_extra s) ;;
          Returns (set_extra e s)
        else Returns s) ;;
  Returns (minus (_sum s) previousSum, s).

Definition count (s : Statistic) : Z := _cnt s.
Definition sum (s : Statistic) : T := _sum s.
Definition minimum (s : Statistic) : T := _min s.
Definition maximum (s : Statistic) : T := _max s.

Definition average (s : Statistic) : T :=
  if _cnt s =? 0 then NaN
  else divide (_sum s) (of_int (_cnt s)).

Definition variance (s : Statistic) : T :=
  if negb _useStdDev then NaN
  else if _cnt s =? 0 then NaN
  else divide (ssqdif (_extra s)) (of_int (_cnt s)).

Definition pop_stdev (s : Statistic) : T :=
  if negb _useStdDev then NaN
  else if _cnt s =? 0 then NaN
  else sqrt (divide (ssqdif (_extra s)) (of_int (_cnt s))).

Definition unbiased_stdev (s : Statistic) : T :=
  if negb _useStdDev then NaN
  else if _cnt s <? 2 then NaN
  else sqrt (divide (ssqdif (_extra s)) (of_int (_cnt s - 1))).

(** *** Runs of the accumulator *)

(** The state after a call of [add], its result discarded. *)
Definition add_ (value : T) (s : Statistic) : outcome Statistic :=
  r <- add value s ;; Returns (snd r).

(** [add] called on each value in turn. *)
Definition add_all (values : list T) (s : Statistic) : outcome Statistic :=
  fold_left (fun o value => s <- o ;; add_ value s) values (Returns s).

(** The state-changing calls of the interface. *)
Inductive call : Type :=
| Add (value : T)
| Clear.

Definition step (s : Statistic) (c : call) : outcome Statistic :=
  match c with
  | Add value => add_ value s
  | Clear => Returns (clear s)
  end.

(** The calls in turn, from the state [s]. *)
Definition run_from (s : Statistic) (calls : list call) : outcome Statistic :=
  fold_left (fun o c => s <- o ;; step s c) calls (Returns s).

(** The state reached from a default-constructed accumulator. *)
Definition run (calls : list call) : outcome Statistic :=
  run_from Statistic_default calls.

(** The values added since the last [clear] (or since construction). *)
Definition since_clear (calls : list call) : list T :=
  fold_left
    (fun acc c => match c with Add value => acc ++ [value] | Clear => [] end)
    calls [].

End Statistic.

Arguments Statistic T _useStdDev : clear implicits.
Arguments extra_type T _useStdDev : clear implicits.
Arguments ssqdif {T fp _useStdDev} _.
Arguments set_cnt {T _useStdDev} c s.
Arguments set_sum {T _useStdDev} v s.
Arguments set_min {T _useStdDev} v s.
Arguments set_max {T _useStdDev} v s.
Arguments set_extra {T _useStdDev} e s.
Arguments clear {T fp _useStdDev} s.
Arguments add {T fp} count_bits {_useStdDev} value s.
Arguments add_ {T fp} count_bits {_useStdDev} value s.
Arguments count {T _useStdDev} s.
Arguments sum {T _useStdDev} s.
Arguments minimum {T _useStdDev} s.
Arguments maximum {T _useStdDev} s.
Arguments average {T fp _useStdDev} s.
Arguments variance {T fp _useStdDev} s.
Arguments pop_stdev {T fp _useStdDev} s.
Arguments unbiased_stdev {T fp _useStdDev} s.
Arguments add_all {T fp} count_bits {_useStdDev} values s.
Arguments step {T fp} count_bits {_useStdDev} s c.
Arguments run_from {T fp} count_bits {_useStdDev} s calls.

End stat.

(** ** Sample data *)

(** The samples of the documented scenario. *)
Definition scenario : list Z := [2; 4; 4; 4; 5; 5; 7; 9].

(** The sum of a list of reals. *)
Definition Rsum (values : list R) : R := fold_right Rplus 0%R values.

(** The mean of a list of reals. *)
Definition Rmean (values : list R) : R :=
  (Rsum values / IZR (Z.of_nat (length values)))%R.

(** ** Relations between states *)

(** What a call of [add] makes of the members when it returns: [_extra] is
    as it was. *)
Definition after_add {T : Type} {fp : floating_point T} (count_bits : Z)
  {b : bool} (value : T) (s : stat.Statistic T b) : stat.Statistic T b :=
  stat.Build_Statistic b
    ((stat._cnt _ s + 1) mod 2 ^ count_bits)
    (plus (stat._sum _ s) value)
    (if stat._cnt _ s =? 0 then value
     else if less value (stat._min _ s) then value else stat._min _ s)
    (if stat._cnt _ s =? 0 then value
     else if less value (stat._min _ s) then stat._max _ s
     else if greater value (stat._max _ s) then value else stat._max _ s)
    (stat._extra _ s).

(** The range recorded in [s] is the range of the values [added]: [_min]
    and [_max] are among them, in order, and bound each of them. *)
Definition range_of {b : bool} (added : list spec_float)
  (s : stat.Statistic spec_float b) : Prop :=
  In (stat.minimum s) added /\
  In (stat.maximum s) added /\
  SFleb (stat.minimum s) (stat.maximum s) = true /\
  forall v, In v added ->
    SFleb (stat.minimum s) v = true /\ SFleb v (stat.maximum s) = true.

(** The values that are not NaN. *)
Definition drop_nan (values : list spec_float) : list spec_float :=
  filter (fun v => negb (is_nan v)) values.

(** * Properties *)

(** ** When [add] is defined, and what it does then *)

Section AddOutcome.

Context {T : Type} {fp : floating_point T}.
Variable count_bits : Z.

(** [add] is undefined exactly when it executes the setter, that is with
    variance tracking when the incremented counter exceeds 1; otherwise it
    returns the new sum minus the old one and updates the four members. *)
Lemma add_spec (b : bool) (value : T) (s : stat.Statistic T b) :
  stat.add count_bits value s =
  if b && (1 <? (stat._cnt _ s + 1) mod 2 ^ count_bits)
  then Undefined_behaviour
  else Returns (minus (plus (stat._sum _ s) value) (stat._sum _ s),
                after_add count_bits value s).
Proof.
  unfold stat.add, after_add.
  destruct (stat._cnt _ s =? 0);
    [|destruct (less value (stat._min _ s));
      [|destruct (greater value (stat._max _ s))]];
    cbn [stat._cnt stat._sum stat._min stat._max stat._extra stat.set_cnt
         stat.set_sum stat.set_min stat.set_max];
    destruct b; cbn [andb];
    try destruct (1 <? (stat._cnt _ s + 1) mod 2 ^ count_bits);
    reflexivity.
Qed.

Lemma add_returns (b : bool) (value : T) (s s' : stat.Statistic T b) (r : T) :
  stat.add count_bits value s = Returns (r, s') ->
  r = minus (plus (stat._sum _ s) value) (stat._sum _ s) /\
  s' = after_add count_bits value s /\
  b && (1 <? (stat._cnt _ s + 1) mod 2 ^ count_bits) = false.
Proof.
  rewrite add_spec.
  destruct (b && _); [discriminate|].
  intros [= <- <-]. auto.
Qed.

Lemma add__returns (b : bool) (value : T) (s s' : stat.Statistic T b) :
  stat.add_ count_bits value s = Returns s' ->
  s' = after_add count_bits value s /\
  b && (1 <? (stat._cnt _ s + 1) mod 2 ^ count_bits) = false.
Proof.
  unfold stat.add_. rewrite add_spec.
  destruct (b && _); [discriminate|].
  cbn. intros [= <-]. auto.
Qed.

(** Without variance tracking every call of [add] returns. *)
Lemma add__disabled (value : T) (s : stat.Statistic T false) :
  stat.add_ count_bits value s = Returns (after_add count_bits value s).
Proof. unfold stat.add_. rewrite add_spec. reflexivity. Qed.

Lemma add__guard (b : bool) (value : T) (s : stat.Statistic T b) :
  b && (1 <? (stat._cnt _ s + 1) mod 2 ^ count_bits) = false ->
  stat.add_ count_bits value s = Returns (after_add count_bits value s).
Proof. intros H. unfold stat.add_. rewrite add_spec, H. reflexivity. Qed.

Lemma add__undefined (value : T) (s : stat.Statistic T true) :
  1 < (stat._cnt _ s + 1) mod 2 ^ count_bits ->
  stat.add_ count_bits value s = Undefined_behaviour.
Proof.
  intros H. unfold stat.add_. rewrite add_spec.
  cbn [andb]. rewrite (proj2 (Z.ltb_lt _ _) H). reflexivity.
Qed.

(** *** Runs *)

Lemma fold_undefined {A B : Type} (f : A -> B -> outcome A) (l : list B) :
  fold_left (fun o x => a <- o ;; f a x) l Undefined_behaviour
  = Undefined_behaviour.
Proof. induction l as [|x l IH]; [reflexivity | exact IH]. Qed.

Lemma add_all_cons (b : bool) (v : T) (l : list T) (s : stat.Statistic T b) :
  stat.add_all count_bits (v :: l) s =
  s1 <- stat.add_ count_bits v s ;; stat.add_all count_bits l s1.
Proof.
  unfold stat.add_all. cbn [fold_left bind].
  destruct (stat.add_ count_bits v s); [reflexivity | apply fold_undefined].
Qed.

Lemma add_all_snoc (b : bool) (l : list T) (v : T) (s : stat.Statistic T b) :
  stat.add_all count_bits (l ++ [v]) s =
  s1 <- stat.add_all count_bits l s ;; stat.add_ count_bits v s1.
Proof. unfold stat.add_all. rewrite fold_left_app. reflexivity. Qed.

Lemma add_all_snoc_returns (b : bool) (l : list T) (v : T)
  (s s2 : stat.Statistic T b) :
  stat.add_all count_bits (l ++ [v]) s = Returns s2 ->
  exists s1, stat.add_all count_bits l s = Returns s1 /\
             s2 = after_add count_bits v s1 /\
             b && (1 <? (stat._cnt _ s1 + 1) mod 2 ^ count_bits) = false.
Proof.
  rewrite add_all_snoc.
  destruct (stat.add_all count_bits l s) as [s1|]; [|discriminate].
  cbn [bind]. intros H. apply add__returns in H. eauto.
Qed.

Lemma add_all_disabled_snoc (l : list T) (v : T) (s s1 : stat.Statistic T false) :
  stat.add_all count_bits l s = Returns s1 ->
  stat.add_all count_bits (l ++ [v]) s = Returns (after_add count_bits v s1).
Proof. intros H. rewrite add_all_snoc, H. apply add__disabled. Qed.

(** Without variance tracking every run returns. *)
Lemma add_all_disabled_returns (l : list T) (s : stat.Statistic T false) :
  exists s', stat.add_all count_bits l s = Returns s'.
Proof.
  induction l as [|v l [s1 IH]] using rev_ind.
  - exists s. reflexivity.
  - eexists. apply add_all_disabled_snoc, IH.
Qed.

Lemma clear_is_default (b : bool) (s : stat.Statistic T b) :
  stat.clear s = stat.Statistic_default b.
Proof.
  destruct s as [c sm mn mx e]. unfold stat.clear, stat.Statistic_default.
  cbn. f_equal. destruct b; [reflexivity | destruct e; reflexivity].
Qed.

Lemma run_snoc (b : bool) (calls : list stat.call) (c : stat.call) :
  stat.run count_bits b (calls ++ [c]) =
  s <- stat.run count_bits b calls ;; stat.step count_bits s c.
Proof. unfold stat.run, stat.run_from. rewrite fold_left_app. reflexivity. Qed.

Lemma since_clear_snoc (calls : list (@stat.call T)) (c : stat.call) :
  stat.since_clear (calls ++ [c]) =
  match c with
  | stat.Add value => stat.since_clear calls ++ [value]
  | stat.Clear => []
  end.
Proof. unfold stat.since_clear. rewrite fold_left_app. reflexivity. Qed.

(** A reachable state is the state of a fresh accumulator after the values
    added since the last [clear]. *)
Lemma run_since_clear (b : bool) (calls : list stat.call)
  (s : stat.Statistic T b) :
  stat.run count_bits b calls = Returns s ->
  stat.add_all count_bits (stat.since_clear calls) (stat.Statistic_default b)
  = Returns s.
Proof.
  revert s. induction calls as [|c calls IH] using rev_ind; intros s.
  - intros H. exact H.
  - rewrite run_snoc, since_clear_snoc.
    destruct (stat.run count_bits b calls) as [s1|]; [|discriminate].
    cbn [bind]. destruct c as [value|]; cbn [stat.step].
    + intros H. rewrite add_all_snoc, (IH s1 eq_refl). exact H.
    + intros [= <-]. rewrite clear_is_default. reflexivity.
Qed.

(** Without variance tracking every sequence of calls returns. *)
Lemma run_disabled_returns (calls : list stat.call) :
  exists s, stat.run count_bits false calls = Returns s.
Proof.
  induction calls as [|c calls [s1 IH]] using rev_ind.
  - eexists. reflexivity.
  - rewrite run_snoc, IH. cbn [bind].
    destruct c as [value|]; cbn [stat.step]; [|eauto].
    rewrite add__disabled. eauto.
Qed.

(** The counter is the number of values added, modulo [2 ^ count_bits]. *)
Lemma add_all_cnt (b : bool) (l : list T) (s : stat.Statistic T b) :
  stat.add_all count_bits l (stat.Statistic_default b) = Returns s ->
  stat._cnt _ s = Z.of_nat (length l) mod 2 ^ count_bits.
Proof.
  revert s. induction l as [|v l IH] using rev_ind; intros s.
  - intros [= <-]. cbn [stat._cnt stat.Statistic_default length].
    rewrite Zmod_0_l. reflexivity.
  - intros H. apply add_all_snoc_returns in H as (s1 & H1 & -> & _).
    cbn [after_add stat._cnt]. rewrite (IH s1 H1), length_app, Zplus_mod_idemp_l.
    f_equal. cbn [length]. lia.
Qed.

Lemma add_all_cnt_small (b : bool) (l : list T) (s : stat.Statistic T b) :
  stat.add_all count_bits l (stat.Statistic_default b) = Returns s ->
  Z.of_nat (length l) < 2 ^ count_bits ->
  stat._cnt _ s = Z.of_nat (length l).
Proof.
  intros H Hlen. rewrite (add_all_cnt b l s H). apply Z.mod_small. lia.
Qed.

End AddOutcome.

(** ** The second tracked [add] *)

Section TrackedAdd.

Context {T : Type} {fp : floating_point T}.
Variable count_bits : Z.
Hypothesis two_bits : 2 <= count_bits.

Lemma small_mod (n : Z) : 0 <= n < 4 -> n mod 2 ^ count_bits = n.
Proof.
  intros Hn. apply Z.mod_small.
  assert (2 ^ 2 <= 2 ^ count_bits) by (apply Z.pow_le_mono_r; lia).
  change (2 ^ 2) with 4 in *. lia.
Qed.

(** The first [add] on a default-constructed accumulator returns. *)
Lemma first_add_returns (b : bool) (v : T) :
  stat.add_ count_bits v (stat.Statistic_default b) =
  Returns (after_add count_bits v (stat.Statistic_default b)).
Proof.
  apply add__guard. cbn [stat._cnt stat.Statistic_default].
  rewrite small_mod by lia. apply andb_false_r.
Qed.

(** With variance tracking, the second [add] in a row executes the setter
    [StdDev::ssqdif(value_type)], which has no [return]: nothing is defined
    from there on. *)
Lemma tracked_adds_undefined (v1 v2 : T) (rest : list T) :
  stat.add_all count_bits (v1 :: v2 :: rest) (stat.Statistic_default true)
  = Undefined_behaviour.
Proof.
  rewrite add_all_cons, first_add_returns. cbn [bind].
  rewrite add_all_cons, add__undefined; [reflexivity|].
  cbn [after_add stat._cnt stat.Statistic_default].
  rewrite (small_mod (0 + 1)), small_mod by lia. lia.
Qed.

Lemma tracked_run_undefined (v1 v2 : T) (calls : list stat.call) :
  stat.run count_bits true (stat.Add v1 :: stat.Add v2 :: calls)
  = Undefined_behaviour.
Proof.
  unfold stat.run, stat.run_from. cbn [fold_left bind stat.step].
  rewrite first_add_returns. cbn [bind].
  rewrite add__undefined; [apply fold_undefined|].
  cbn [after_add stat._cnt stat.Statistic_default].
  rewrite (small_mod (0 + 1)), small_mod by lia. lia.
Qed.

End TrackedAdd.

(** C1: the scenario adds 2.0, 4.0, 4.0, 4.0, 5.0, 5.0, 7.0, 9.0 to a fresh
    accumulator with variance tracking and expects [count()] 8, [sum()]
    40.0, [average()] 5.0, [minimum()] 2.0, [maximum()] 9.0, [pop_stdev()]
    2.0 and [unbiased_stdev()] about 2.138.  In the code
    ([Statistic<float, uint32_t, true>], the library's [Statistic] typedef)
    the first [add] returns 2.0 and leaves [count()] at 1; the second,
    [add(4.0)], executes [StdDev::ssqdif(value_type)], whose body has no
    [return]: its behaviour is undefined, and so is the scenario. *)
Theorem scenario_is_undefined :
  let fresh := stat.Statistic_default (fp := binary32) true in
  let two := of_int (floating_point := binary32) 2 in
  let four := of_int (floating_point := binary32) 4 in
  (exists s1,
     stat.add (fp := binary32) 32 two fresh = Returns (two, s1) /\
     stat.count s1 = 1 /\
     stat.add (fp := binary32) 32 four s1 = Undefined_behaviour) /\
  stat.add_all (fp := binary32) 32
    (map (of_int (floating_point := binary32)) scenario) fresh
  = Undefined_behaviour.
Proof.
  intros fresh two four. split.
  - eexists. split; [vm_compute; reflexivity | split; reflexivity].
  - apply (tracked_adds_undefined (fp := binary32) 32). lia.
Qed.

(** C2: the accumulator that [add] is to maintain by the post-increment
    recurrence, in exact arithmetic.  From the second sample on, the
    update goes through [StdDev::ssqdif(value_type)], which has no
    [return]: for every sequence of two or more samples the run is
    undefined and no accumulator value exists to compare with the textbook
    recurrence. *)
Theorem accumulator_update_is_undefined (a b : R) (rest : list R) :
  stat.add_all 32 (map Real (a :: b :: rest)) (stat.Statistic_default true)
  = Undefined_behaviour.
Proof.
  cbn [map]. apply (tracked_adds_undefined (fp := exact_arith) 32). lia.
Qed.


(** C9: after one call of [add] the two instantiations return and agree
    on [count()], [sum()], [minimum()], [maximum()] and [average()].  After
    the same two calls of [add], the instantiation without variance
    tracking returns, with [count()] 2 and NaN from the three variance
    queries, and the one with tracking is undefined: there are no results
    of the latter for the former to agree with. *)
Theorem enabled_run_is_undefined {T : Type} {fp : floating_point T}
  (v1 v2 : T) :
  (exists s_off s_on,
     stat.run 32 false [stat.Add v1] = Returns s_off /\
     stat.run 32 true [stat.Add v1] = Returns s_on /\
     stat.count s_off = stat.count s_on /\
     stat.sum s_off = stat.sum s_on /\
     stat.minimum s_off = stat.minimum s_on /\
     stat.maximum s_off = stat.maximum s_on /\
     stat.average s_off = stat.average s_on) /\
  (exists s,
     stat.run 32 false [stat.Add v1; stat.Add v2] = Returns s /\
     stat.count s = 2 /\
     stat.sum s = plus (plus (of_int 0) v1) v2 /\
     stat.variance s = NaN /\
     stat.pop_stdev s = NaN /\
     stat.unbiased_stdev s = NaN) /\
  stat.run 32 true [stat.Add v1; stat.Add v2] = Undefined_behaviour.
Proof.
  split; [|split].
  - unfold stat.run, stat.run_from. cbn [fold_left bind stat.step].
    rewrite !(first_add_returns 32) by lia.
    do 2 eexists. split; [reflexivity|]. split; [reflexivity|].
    repeat split.
  - unfold stat.run, stat.run_from. cbn [fold_left bind stat.step].
    rewrite add__disabled. cbn [bind]. rewrite add__disabled.
    eexists. split; [reflexivity|]. repeat split.
  - apply (tracked_run_undefined 32). lia.
Qed.

(** ** [clear] *)

(** C6: in every state, and so in every reachable one, [clear()] followed
    by any of the queries gives what the query gives on a
    default-constructed accumulator. *)
Theorem clear_then_query_as_fresh {T : Type} {fp : floating_point T}
  (_useStdDev : bool) (s : stat.Statistic T _useStdDev) :
  let cleared := stat.clear s in
  let fresh := stat.Statistic_default _useStdDev in
  stat.count cleared = stat.count fresh /\
  stat.sum cleared = stat.sum fresh /\
  stat.minimum cleared = stat.minimum fresh /\
  stat.maximum cleared = stat.maximum fresh /\
  stat.average cleared = stat.average fresh /\
  stat.variance cleared = stat.variance fresh /\
  stat.pop_stdev cleared = stat.pop_stdev fresh /\
  stat.unbiased_stdev cleared = stat.unbiased_stdev fresh.
Proof.
  intros cleared fresh. subst cleared fresh.
  rewrite clear_is_default. repeat split.
Qed.

(** ** The empty state *)

Section EmptyState.

Context {T : Type} {fp : floating_point T}.
Variable count_bits : Z.
Variable _useStdDev : bool.

(** With fewer than [2 ^ count_bits] values added since the last [clear], a
    counter at zero means that nothing was added. *)
Lemma count_zero_is_default (calls : list stat.call)
  (s : stat.Statistic T _useStdDev) :
  stat.run count_bits _useStdDev calls = Returns s ->
  Z.of_nat (length (stat.since_clear calls)) < 2 ^ count_bits ->
  stat.count s = 0 ->
  s = stat.Statistic_default _useStdDev.
Proof.
  intros Hrun Hlen Hc. apply run_since_clear in Hrun.
  pose proof (add_all_cnt_small count_bits _ _ _ Hrun Hlen) as Hcnt.
  unfold stat.count in Hc. rewrite Hc in Hcnt.
  destruct (stat.since_clear calls); [|cbn [length] in Hcnt; lia].
  injection Hrun as <-. reflexivity.
Qed.

Lemma count_zero_average (s : stat.Statistic T _useStdDev) :
  stat.count s = 0 -> stat.average s = NaN.
Proof. unfold stat.count, stat.average. intros ->. reflexivity. Qed.

Lemma count_zero_variance (s : stat.Statistic T _useStdDev) :
  stat.count s = 0 -> stat.variance s = NaN.
Proof.
  unfold stat.count, stat.variance. intros ->.
  destruct _useStdDev; reflexivity.
Qed.

End EmptyState.

(** C3, the claim as stated fails: with an 8-bit counter and no variance
    tracking ([Statistic<float, uint8_t, false>], where every [add]
    returns) the 256th [add] wraps [_cnt] to zero, and the state has
    [count() == 0] with [sum() == 256.0], [minimum() == 1.0] and
    [maximum() == 1.0]. *)
Lemma empty_state_counterexample :
  exists s,
    stat.run (fp := binary32) 8 false
      (repeat (stat.Add (of_int (floating_point := binary32) 1)) 256)
    = Returns s /\
    stat.count s = 0 /\
    stat.sum s = of_int (floating_point := binary32) 256 /\
    stat.minimum s = of_int (floating_point := binary32) 1 /\
    stat.maximum s = of_int (floating_point := binary32) 1 /\
    stat.sum s <> S754_zero false /\
    SFeqb (stat.sum s) (S754_zero false) = false.
Proof.
  eexists. split; [vm_compute; reflexivity|].
  vm_compute. repeat split; discriminate.
Qed.

(** C3, amended: in every reachable state (one that the calls reach by
    returning) with [count() == 0], [average()] and [variance()] return
    NaN; and when fewer than [2 ^ count_bits] values were added since the
    last [clear] (the counter did not wrap), [sum()], [minimum()] and
    [maximum()] are the zero [+0.0], which is not NaN.  For every IEEE
    format and both values of [_useStdDev]. *)
Theorem empty_state_zero_and_nan (prec emax count_bits : Z)
  (_useStdDev : bool) (calls : list stat.call)
  (s : stat.Statistic spec_float _useStdDev) :
  stat.run (fp := ieee prec emax) count_bits _useStdDev calls = Returns s ->
  stat.count s = 0 ->
  (stat.average (fp := ieee prec emax) s = S754_nan /\
   stat.variance (fp := ieee prec emax) s = S754_nan) /\
  (Z.of_nat (length (stat.since_clear calls)) < 2 ^ count_bits ->
   stat.sum s = S754_zero false /\
   stat.minimum s = S754_zero false /\
   stat.maximum s = S754_zero false).
Proof.
  intros Hrun Hc. split.
  - split; [apply (count_zero_average (fp := ieee prec emax))
           | apply (count_zero_variance (fp := ieee prec emax))]; exact Hc.
  - intros Hlen.
    rewrite (count_zero_is_default (fp := ieee prec emax) count_bits
               _useStdDev calls s Hrun Hlen Hc).
    repeat split.
Qed.

Lemma empty_state_zero_and_nan_witness :
  exists s,
    stat.run (fp := binary32) 32 false
      [stat.Add (of_int (floating_point := binary32) 3); stat.Clear]
    = Returns s /\
    stat.count s = 0 /\
    (stat.average (fp := binary32) s = S754_nan /\
     stat.variance (fp := binary32) s = S754_nan) /\
    stat.sum s = S754_zero false /\
    stat.minimum s = S754_zero false /\
    stat.maximum s = S754_zero false.
Proof.
  exists (stat.Statistic_default (fp := binary32) false).
  assert (Hrun : stat.run (fp := binary32) 32 false
            [stat.Add (of_int (floating_point := binary32) 3); stat.Clear]
          = Returns (stat.Statistic_default (fp := binary32) false))
    by reflexivity.
  assert (Hc : stat.count (stat.Statistic_default (fp := binary32) false) = 0)
    by reflexivity.
  split; [exact Hrun | split; [exact Hc|]].
  pose proof (empty_state_zero_and_nan 24 128 32 false
    [stat.Add (of_int (floating_point := binary32) 3); stat.Clear] _
    Hrun Hc) as [Hnan Hzero].
  split; [exact Hnan | apply Hzero; reflexivity].
Defined.

(** ** The order of IEEE values *)

(** [SFcompare] does not depend on the format: the lemmas hold for every
    [ieee prec emax]. *)

Ltac compare_cases :=
  repeat match goal with
    | |- context [Pos.compare_cont Eq ?a ?b] =>
        change (Pos.compare_cont Eq a b) with (Pos.compare a b);
        destruct (Pos.compare_spec a b)
    | |- context [Z.compare ?a ?b] => destruct (Z.compare_spec a b)
    | H : context [Pos.compare_cont Eq ?a ?b] |- _ =>
        change (Pos.compare_cont Eq a b) with (Pos.compare a b) in H;
        destruct (Pos.compare_spec a b)
    | H : context [Z.compare ?a ?b] |- _ => destruct (Z.compare_spec a b)
    end.

Ltac float_cases x y :=
  let s1 := fresh "s" in let s2 := fresh "s" in
  destruct x as [s1|s1| |s1 ? ?], y as [s2|s2| |s2 ? ?];
  cbn; try discriminate; try reflexivity;
  try (destruct s1; try discriminate; try reflexivity);
  try (destruct s2; try discriminate; try reflexivity).

Lemma SFltb_nan_l (x : spec_float) : SFltb S754_nan x = false.
Proof. reflexivity. Qed.

Lemma SFltb_nan_r (x : spec_float) : SFltb x S754_nan = false.
Proof. destruct x; reflexivity. Qed.

Lemma SFltb_not_nan (x y : spec_float) :
  SFltb x y = true -> is_nan x = false /\ is_nan y = false.
Proof. destruct x, y; cbn; try discriminate; auto. Qed.

Lemma SFleb_not_nan (x y : spec_float) :
  SFleb x y = true -> is_nan x = false /\ is_nan y = false.
Proof. destruct x, y; cbn; try discriminate; auto. Qed.

Lemma SFleb_refl (x : spec_float) : is_nan x = false -> SFleb x x = true.
Proof.
  destruct x as [s|s| |s m e]; try discriminate; intros _; unfold SFleb; cbn;
    try (destruct s; reflexivity).
  destruct s; rewrite Z.compare_refl, Pos.compare_cont_refl; reflexivity.
Qed.

Lemma SFleb_trans (x y z : spec_float) :
  SFleb x y = true -> SFleb y z = true -> SFleb x z = true.
Proof.
  unfold SFleb. float_cases x y; destruct z as [s3|s3| |s3 m3 e3];
    cbn; try discriminate; try reflexivity;
    try (destruct s3; try discriminate; try reflexivity).
  all: intros H1 H2; compare_cases; cbn in *;
    try discriminate; try reflexivity; try lia.
Qed.

Lemma SFltb_false_leb (x y : spec_float) :
  is_nan x = false -> is_nan y = false -> SFltb x y = false -> SFleb y x = true.
Proof.
  unfold SFleb, SFltb. float_cases x y.
  all: intros _ _ H; compare_cases; cbn in *;
    try discriminate; try reflexivity; try lia.
Qed.

Lemma SFltb_leb (x y : spec_float) : SFltb x y = true -> SFleb x y = true.
Proof.
  unfold SFleb, SFltb.
  destruct (SFcompare x y) as [[]|]; try discriminate; reflexivity.
Qed.

Lemma SFleb_antisym (x y : spec_float) :
  SFleb x y = true -> SFleb y x = true -> SFeqb x y = true.
Proof.
  unfold SFleb, SFeqb. float_cases x y.
  all: intros H1 H2; compare_cases; cbn in *;
    try discriminate; try reflexivity; try lia.
Qed.

(** ** Minimum and maximum *)

Section Range.

Variables prec emax count_bits : Z.
Variable _useStdDev : bool.

Local Abbreviation Statistic := (stat.Statistic spec_float _useStdDev).
Local Abbreviation after :=
  (after_add (fp := ieee prec emax) count_bits (b := _useStdDev)).
Local Abbreviation add_all :=
  (stat.add_all (fp := ieee prec emax) count_bits (_useStdDev := _useStdDev)).
Local Abbreviation fresh :=
  (stat.Statistic_default (fp := ieee prec emax) _useStdDev).

Lemma after_add_min (v : spec_float) (s : Statistic) :
  stat._min _ (after v s) =
  if stat._cnt _ s =? 0 then v
  else if SFltb v (stat._min _ s) then v else stat._min _ s.
Proof. reflexivity. Qed.

Lemma after_add_max (v : spec_float) (s : Statistic) :
  stat._max _ (after v s) =
  if stat._cnt _ s =? 0 then v
  else if SFltb v (stat._min _ s) then stat._max _ s
  else if SFltb (stat._max _ s) v then v else stat._max _ s.
Proof. reflexivity. Qed.

Lemma cnt_eqb_false (s : Statistic) :
  stat._cnt _ s <> 0 -> (stat._cnt _ s =? 0) = false.
Proof. apply Z.eqb_neq. Qed.

Lemma add_all_cnt_nonzero (l : list spec_float) (s : Statistic) :
  add_all l fresh = Returns s ->
  l <> [] -> Z.of_nat (length l) < 2 ^ count_bits ->
  stat._cnt _ s <> 0.
Proof.
  intros Hrun Hne Hlen.
  rewrite (add_all_cnt_small (fp := ieee prec emax) count_bits _ _ _ Hrun Hlen).
  destruct l; [contradiction | cbn [length]; lia].
Qed.

Lemma range_add_first (v : spec_float) (s : Statistic) :
  stat._cnt _ s = 0 -> is_nan v = false -> range_of [v] (after v s).
Proof.
  intros Hc Hv. unfold range_of, stat.minimum, stat.maximum.
  rewrite after_add_min, after_add_max, Hc. cbn [Z.eqb In].
  split; [|split; [|split; [|intros w [<- | []]]]]; auto using SFleb_refl.
Qed.

Lemma range_add_next (l : list spec_float) (v : spec_float) (s : Statistic) :
  stat._cnt _ s <> 0 -> is_nan v = false ->
  range_of l s -> range_of (l ++ [v]) (after v s).
Proof.
  intros Hc Hv (Hmin & Hmax & Hle & Hall).
  destruct (SFleb_not_nan _ _ Hle) as [Hnmin Hnmax].
  unfold range_of, stat.minimum, stat.maximum in *.
  rewrite after_add_min, after_add_max, cnt_eqb_false by exact Hc.
  destruct (SFltb v (stat._min _ s)) eqn:Hlt;
    [|destruct (SFltb (stat._max _ s) v) eqn:Hgt].
  - (* a new minimum *)
    apply SFltb_leb in Hlt.
    split; [|split; [|split; [|intros w Hw; split]]].
    + apply in_or_app. right. left. reflexivity.
    + apply in_or_app. left. exact Hmax.
    + eapply SFleb_trans; eassumption.
    + apply in_app_or in Hw as [Hw | [<- | []]].
      * eapply SFleb_trans; [exact Hlt | apply Hall, Hw].
      * apply SFleb_refl, Hv.
    + apply in_app_or in Hw as [Hw | [<- | []]].
      * apply Hall, Hw.
      * eapply SFleb_trans; eassumption.
  - (* a new maximum *)
    apply SFltb_leb in Hgt.
    split; [|split; [|split; [|intros w Hw; split]]].
    + apply in_or_app. left. exact Hmin.
    + apply in_or_app. right. left. reflexivity.
    + eapply SFleb_trans; eassumption.
    + apply in_app_or in Hw as [Hw | [<- | []]].
      * apply Hall, Hw.
      * eapply SFleb_trans; eassumption.
    + apply in_app_or in Hw as [Hw | [<- | []]].
      * eapply SFleb_trans; [apply Hall, Hw | exact Hgt].
      * apply SFleb_refl, Hv.
  - (* within the range *)
    apply SFltb_false_leb in Hlt; [|assumption ..].
    apply SFltb_false_leb in Hgt; [|assumption ..].
    split; [|split; [|split; [|intros w Hw; split]]].
    + apply in_or_app. left. exact Hmin.
    + apply in_or_app. left. exact Hmax.
    + exact Hle.
    + apply in_app_or in Hw as [Hw | [<- | []]]; [apply Hall, Hw | exact Hlt].
    + apply in_app_or in Hw as [Hw | [<- | []]]; [apply Hall, Hw | exact Hgt].
Qed.

(** Without NaN and before the counter wraps, the recorded range is the
    range of the values added. *)
Lemma range_add_all (l : list spec_float) (s : Statistic) :
  add_all l fresh = Returns s ->
  l <> [] ->
  Forall (fun v => is_nan v = false) l ->
  Z.of_nat (length l) <= 2 ^ count_bits ->
  range_of l s.
Proof.
  revert s. induction l as [|v l IH] using rev_ind; [contradiction|].
  intros s Hrun _ Hall Hlen.
  apply Forall_app in Hall as [Hl Hv]. inversion_clear Hv as [|? ? Hv' _].
  rewrite length_app in Hlen. cbn [length] in Hlen.
  apply add_all_snoc_returns in Hrun as (s1 & Hrun1 & -> & _).
  destruct l as [|u l].
  - injection Hrun1 as <-. apply range_add_first; [reflexivity | exact Hv'].
  - apply range_add_next; [|exact Hv'|].
    + apply (add_all_cnt_nonzero (u :: l)); [exact Hrun1 | discriminate | lia].
    + apply IH; [exact Hrun1 | discriminate | exact Hl | lia].
Qed.

End Range.

(** C7, the claim as stated fails, already without variance tracking,
    where every [add] returns.  A NaN added first is recorded as both
    minimum and maximum, and [NaN <= NaN] is false; and with an 8-bit
    counter the 257th [add] finds [_cnt == 0] and restarts the range, so
    that an earlier value lies outside it. *)
Lemma minimum_maximum_counterexample :
  (exists s,
     stat.run (fp := binary32) 32 false [stat.Add S754_nan] = Returns s /\
     stat.count s = 1 /\
     SFleb (stat.minimum s) (stat.maximum s) = false) /\
  (let five := of_int (floating_point := binary32) 5 in
   let one := of_int (floating_point := binary32) 1 in
   exists s,
     stat.run (fp := binary32) 8 false
       (repeat (stat.Add five) 256 ++ [stat.Add one]) = Returns s /\
     stat.count s = 1 /\
     stat.maximum s = one /\
     SFleb five (stat.maximum s) = false).
Proof.
  split.
  - eexists. split; [vm_compute; reflexivity | split; reflexivity].
  - eexists. split; [vm_compute; reflexivity | repeat split; reflexivity].
Qed.

(** C7, amended: in every reachable state (one that the calls reach by
    returning) with [count() >= 1], when no value added since the last
    [clear] is NaN and fewer than [2 ^ count_bits] values were added since
    then, [minimum() <= maximum()], each of the two is one of the values
    added since the last [clear], and [minimum() <= v <= maximum()] for
    every such value [v]. *)
Theorem minimum_maximum_attained (prec emax count_bits : Z)
  (_useStdDev : bool) (calls : list stat.call)
  (s : stat.Statistic spec_float _useStdDev) :
  let added := stat.since_clear calls in
  stat.run (fp := ieee prec emax) count_bits _useStdDev calls = Returns s ->
  Forall (fun v => is_nan v = false) added ->
  Z.of_nat (length added) < 2 ^ count_bits ->
  1 <= stat.count s ->
  SFleb (stat.minimum s) (stat.maximum s) = true /\
  In (stat.minimum s) added /\
  In (stat.maximum s) added /\
  forall v, In v added ->
    SFleb (stat.minimum s) v = true /\ SFleb v (stat.maximum s) = true.
Proof.
  intros added Hrun Hnan Hlen Hcount.
  apply (run_since_clear (fp := ieee prec emax)) in Hrun. fold added in Hrun.
  unfold stat.count in Hcount.
  rewrite (add_all_cnt_small (fp := ieee prec emax) _ _ _ _ Hrun Hlen)
    in Hcount.
  assert (Hne : added <> [])
    by (intros E; rewrite E in Hcount; cbn in Hcount; lia).
  destruct (range_add_all prec emax count_bits _useStdDev added s Hrun Hne Hnan)
    as (Hmin & Hmax & Hle & Hall); [lia|].
  auto.
Qed.

Lemma minimum_maximum_attained_witness :
  let three := of_int (floating_point := binary32) 3 in
  let one := of_int (floating_point := binary32) 1 in
  let two := of_int (floating_point := binary32) 2 in
  exists s,
    stat.run (fp := binary32) 32 false
      [stat.Add three; stat.Add one; stat.Add two] = Returns s /\
    SFleb (stat.minimum s) (stat.maximum s) = true /\
    In (stat.minimum s) [three; one; two] /\
    In (stat.maximum s) [three; one; two] /\
    forall v, In v [three; one; two] ->
      SFleb (stat.minimum s) v = true /\ SFleb v (stat.maximum s) = true.
Proof.
  intros three one two.
  destruct (run_disabled_returns (fp := binary32) 32
              [stat.Add three; stat.Add one; stat.Add two]) as [s Hrun].
  exists s. split; [exact Hrun|].
  apply (minimum_maximum_attained 24 128 32 false
           [stat.Add three; stat.Add one; stat.Add two] s Hrun).
  - repeat constructor.
  - reflexivity.
  - vm_compute in Hrun. injection Hrun as <-. vm_compute. discriminate.
Defined.

(** ** NaN samples and the range *)

Section NanSamples.

Variables prec emax count_bits : Z.
Variable _useStdDev : bool.

Local Abbreviation Statistic := (stat.Statistic spec_float _useStdDev).
Local Abbreviation after :=
  (after_add (fp := ieee prec emax) count_bits (b := _useStdDev)).
Local Abbreviation add_all :=
  (stat.add_all (fp := ieee prec emax) count_bits (_useStdDev := _useStdDev)).
Local Abbreviation fresh :=
  (stat.Statistic_default (fp := ieee prec emax) _useStdDev).

(** Both comparisons against NaN are false. *)
Lemma add_nan_keeps_range (s : Statistic) :
  stat._cnt _ s <> 0 ->
  stat._min _ (after S754_nan s) = stat._min _ s /\
  stat._max _ (after S754_nan s) = stat._max _ s.
Proof.
  intros Hc. rewrite after_add_min, after_add_max, cnt_eqb_false by exact Hc.
  rewrite SFltb_nan_l, SFltb_nan_r. auto.
Qed.

(** The range after [add] is a function of the value and of the range
    before, once the counter is not zero. *)
Lemma add_range_congruence (v : spec_float) (s s' : Statistic) :
  stat._cnt _ s <> 0 -> stat._cnt _ s' <> 0 ->
  stat._min _ s = stat._min _ s' -> stat._max _ s = stat._max _ s' ->
  stat._min _ (after v s) = stat._min _ (after v s') /\
  stat._max _ (after v s) = stat._max _ (after v s').
Proof.
  intros Hc Hc' Hmin Hmax.
  rewrite !after_add_min, !after_add_max, !cnt_eqb_false, Hmin, Hmax
    by assumption.
  auto.
Qed.

Lemma drop_nan_snoc (l : list spec_float) (v : spec_float) :
  drop_nan (l ++ [v]) = drop_nan l ++ (if is_nan v then [] else [v]).
Proof.
  unfold drop_nan. rewrite filter_app. cbn. destruct (is_nan v); reflexivity.
Qed.

Lemma drop_nan_length (l : list spec_float) :
  (length (drop_nan l) <= length l)%nat.
Proof. apply filter_length_le. Qed.

Lemma add_all_cons_cnt_nonzero (x : spec_float) (l : list spec_float)
  (s : Statistic) :
  add_all (x :: l) fresh = Returns s ->
  Z.of_nat (length (x :: l)) < 2 ^ count_bits ->
  stat._cnt _ s <> 0.
Proof.
  intros Hrun Hlen.
  apply (add_all_cnt_nonzero prec emax count_bits _useStdDev (x :: l));
    [exact Hrun | discriminate | exact Hlen].
Qed.

(** A NaN added after the first value leaves no trace in the range. *)
Lemma range_ignores_later_nan (first : spec_float) (rest : list spec_float)
  (s s' : Statistic) :
  add_all (first :: rest) fresh = Returns s ->
  add_all (first :: drop_nan rest) fresh = Returns s' ->
  Z.of_nat (length (first :: rest)) <= 2 ^ count_bits ->
  stat._min _ s = stat._min _ s' /\ stat._max _ s = stat._max _ s'.
Proof.
  revert s s'. induction rest as [|v rest IH] using rev_ind; intros s s'.
  - cbn [drop_nan filter]. intros -> [= ->]. auto.
  - intros Hrun Hrun' Hlen.
    rewrite length_cons, length_app in Hlen. cbn [length] in Hlen.
    assert (Hlen' : Z.of_nat (length (first :: rest)) < 2 ^ count_bits)
      by (cbn [length]; lia).
    pose proof (drop_nan_length rest) as Hdrop.
    rewrite app_comm_cons in Hrun.
    apply add_all_snoc_returns in Hrun as (s1 & Hrun1 & -> & _).
    pose proof (add_all_cons_cnt_nonzero _ _ _ Hrun1 Hlen') as Hc.
    rewrite drop_nan_snoc, app_comm_cons in Hrun'.
    destruct v as [sv|sv| |sv mv ev]; cbn [is_nan] in Hrun'.
    3: { rewrite app_nil_r in Hrun'.
         destruct (IH s1 s' Hrun1 Hrun') as [Hmin Hmax]; [lia|].
         destruct (add_nan_keeps_range _ Hc) as [-> ->]. auto. }
    all: apply add_all_snoc_returns in Hrun' as (s1' & Hrun1' & -> & _);
      destruct (IH s1 s1' Hrun1 Hrun1') as [Hmin Hmax]; [lia|];
      apply add_range_congruence; try assumption;
      apply (add_all_cons_cnt_nonzero _ _ _ Hrun1');
      cbn [length] in *; lia.
Qed.

(** The range is NaN exactly when the first value is. *)
Lemma range_nan_iff_first (first : spec_float) (rest : list spec_float)
  (s : Statistic) :
  add_all (first :: rest) fresh = Returns s ->
  Z.of_nat (length (first :: rest)) <= 2 ^ count_bits ->
  is_nan (stat._min _ s) = is_nan first /\
  is_nan (stat._max _ s) = is_nan first.
Proof.
  revert s. induction rest as [|v rest IH] using rev_ind; intros s.
  - intros Hrun _.
    apply (add_all_snoc_returns (fp := ieee prec emax) count_bits _ [])
      in Hrun as (s1 & [= <-] & -> & _).
    auto.
  - intros Hrun Hlen.
    rewrite length_cons, length_app in Hlen. cbn [length] in Hlen.
    assert (Hlen' : Z.of_nat (length (first :: rest)) < 2 ^ count_bits)
      by (cbn [length]; lia).
    rewrite app_comm_cons in Hrun.
    apply add_all_snoc_returns in Hrun as (s1 & Hrun1 & -> & _).
    destruct (IH s1 Hrun1) as [Hmin Hmax]; [lia|].
    rewrite after_add_min, after_add_max, cnt_eqb_false
      by (apply (add_all_cons_cnt_nonzero _ _ _ Hrun1); exact Hlen').
    destruct (SFltb v _) eqn:Hlt; [|destruct (SFltb _ v) eqn:Hgt].
    + apply SFltb_not_nan in Hlt as [Hv Hm]. split; [congruence | exact Hmax].
    + apply SFltb_not_nan in Hgt as [Hm Hv]. split; [exact Hmin | congruence].
    + auto.
Qed.

End NanSamples.

(** C10, the claim as stated fails once the counter wraps, already without
    variance tracking, where every [add] returns.  With an 8-bit counter, a
    NaN added first does not stay in the range for all later adds (the
    257th [add] finds [_cnt == 0] and records its value), and a NaN added
    as the 257th value, long after the first, becomes both minimum and
    maximum. *)
Lemma nan_range_counterexample :
  let one := of_int (floating_point := binary32) 1 in
  let fresh := stat.Statistic_default (fp := binary32) false in
  (exists s,
     stat.add_all (fp := binary32) 8 (S754_nan :: repeat one 256) fresh
     = Returns s /\
     stat.minimum s = one /\ stat.maximum s = one) /\
  (exists s,
     stat.add_all (fp := binary32) 8 (repeat one 256 ++ [S754_nan]) fresh
     = Returns s /\
     stat.minimum s = S754_nan /\ stat.maximum s = S754_nan).
Proof.
  split; eexists; (split; [vm_compute; reflexivity | split; reflexivity]).
Qed.

(** C10, amended: in every state with [count() >= 1], an [add(NaN)] that
    returns leaves [_min] and [_max] unchanged.  For a fresh accumulator
    and at most [2 ^ count_bits] values (no [add] finds a wrapped counter),
    when the adds return: [minimum()] and [maximum()] are NaN exactly when
    the first value is NaN, whatever is added after it; and the NaN values
    after the first do not show in them: they are what they would be had
    those values not been added. *)
Theorem nan_and_the_range (prec emax count_bits : Z) (_useStdDev : bool) :
  (forall (s s' : stat.Statistic spec_float _useStdDev) (r : spec_float),
     1 <= stat.count s ->
     stat.add (fp := ieee prec emax) count_bits S754_nan s = Returns (r, s') ->
     stat.minimum s' = stat.minimum s /\ stat.maximum s' = stat.maximum s) /\
  (forall (first : spec_float) (rest : list spec_float)
          (s : stat.Statistic spec_float _useStdDev),
     let fresh := stat.Statistic_default (fp := ieee prec emax) _useStdDev in
     Z.of_nat (length (first :: rest)) <= 2 ^ count_bits ->
     stat.add_all (fp := ieee prec emax) count_bits (first :: rest) fresh
     = Returns s ->
     is_nan (stat.minimum s) = is_nan first /\
     is_nan (stat.maximum s) = is_nan first /\
     forall s' : stat.Statistic spec_float _useStdDev,
       stat.add_all (fp := ieee prec emax) count_bits
         (first :: drop_nan rest) fresh = Returns s' ->
       stat.minimum s = stat.minimum s' /\ stat.maximum s = stat.maximum s').
Proof.
  split.
  - intros s s' r Hc Hadd.
    apply (add_returns (fp := ieee prec emax)) in Hadd as (_ & -> & _).
    apply add_nan_keeps_range. unfold stat.count in Hc. lia.
  - intros first rest s fresh Hlen Hrun.
    destruct (range_nan_iff_first prec emax count_bits _useStdDev
                first rest s Hrun Hlen) as [Hnmin Hnmax].
    split; [exact Hnmin | split; [exact Hnmax|]].
    intros s' Hrun'.
    apply (range_ignores_later_nan prec emax count_bits _useStdDev
             first rest s s' Hrun Hrun' Hlen).
Qed.

Lemma nan_and_the_range_witness :
  let one := of_int (floating_point := binary32) 1 in
  let two := of_int (floating_point := binary32) 2 in
  let fresh := stat.Statistic_default (fp := binary32) false in
  exists s s' s'' r,
    stat.add_all (fp := binary32) 32 [two; S754_nan; one] fresh = Returns s /\
    stat.add_all (fp := binary32) 32 [two; one] fresh = Returns s' /\
    stat.add (fp := binary32) 32 S754_nan s = Returns (r, s'') /\
    (stat.minimum s'' = stat.minimum s /\ stat.maximum s'' = stat.maximum s) /\
    is_nan (stat.minimum s) = false /\
    is_nan (stat.maximum s) = false /\
    stat.minimum s = stat.minimum s' /\
    stat.maximum s = stat.maximum s'.
Proof.
  intros one two fresh.
  destruct (nan_and_the_range 24 128 32 false) as [Hstep Hrun].
  do 4 eexists.
  split; [vm_compute; reflexivity|].
  split; [vm_compute; reflexivity|].
  split; [vm_compute; reflexivity|].
  split.
  - eapply Hstep; [vm_compute; discriminate | vm_compute; reflexivity].
  - edestruct (Hrun two [S754_nan; one]) as (Hmin & Hmax & Hdrop);
      [vm_compute; discriminate | vm_compute; reflexivity |].
    split; [exact Hmin | split; [exact Hmax|]].
    apply Hdrop. vm_compute. reflexivity.
Defined.

(** ** Exact arithmetic *)

Section Exact.

Variable count_bits : Z.

Lemma Rsum_cons (a : R) (l : list R) : Rsum (a :: l) = (a + Rsum l)%R.
Proof. reflexivity. Qed.

Lemma Rsum_snoc (l : list R) (v : R) : Rsum (l ++ [v]) = (Rsum l + v)%R.
Proof.
  unfold Rsum. induction l as [|a l IH]; cbn; [lra | rewrite IH; lra].
Qed.

Lemma Rsum_permutation (l1 l2 : list R) :
  Permutation l1 l2 -> Rsum l1 = Rsum l2.
Proof.
  unfold Rsum. induction 1; cbn; try lra; congruence.
Qed.

(** In exact arithmetic [sum()] is the sum of the values. *)
Lemma exact_sum_add_all (b : bool) (l : list R) (s : stat.Statistic exact b) :
  stat.add_all count_bits (map Real l) (stat.Statistic_default b) = Returns s ->
  stat._sum _ s = Real (Rsum l).
Proof.
  revert s. induction l as [|v l IH] using rev_ind; intros s.
  - intros [= <-]. reflexivity.
  - rewrite map_app. cbn [map]. intros Hrun.
    apply add_all_snoc_returns in Hrun as (s1 & Hrun1 & -> & _).
    cbn [after_add stat._sum]. rewrite (IH s1 Hrun1), Rsum_snoc. reflexivity.
Qed.

End Exact.

(** ** The value returned by [add] *)

(** C5, the claim as stated fails in IEEE arithmetic: in single precision
    and without variance tracking (every [add] returns), with
    [sum() == 16777216.0] (2^24), [add(1.0)] leaves the sum at 16777216.0,
    the rounding of 16777217, and returns 0.0, not 1.0. *)
Lemma add_return_counterexample :
  let big := of_int (floating_point := binary32) 16777216 in
  let one := of_int (floating_point := binary32) 1 in
  exists s s',
    stat.add_all (fp := binary32) 32 [big]
      (stat.Statistic_default (fp := binary32) false) = Returns s /\
    stat.sum s = big /\
    stat.add (fp := binary32) 32 one s = Returns (S754_zero false, s') /\
    stat.sum s' = big /\
    SFeqb (S754_zero false) one = false.
Proof.
  do 2 eexists.
  split; [vm_compute; reflexivity|].
  split; [reflexivity|].
  split; [vm_compute; reflexivity|].
  split; reflexivity.
Qed.

(** C5, amended: for every state and every value, when [add(value)]
    returns, it returns the new sum minus the old sum, computed in the
    arithmetic of [T]; in exact arithmetic, on a state whose sum is a
    number, that is [value].  (In IEEE arithmetic the new sum is rounded
    and the difference need not be [value].)  Without variance tracking
    [add] always returns. *)
Theorem add_returns_sum_increment :
  (forall (T : Type) (fp : floating_point T) (count_bits : Z)
          (_useStdDev : bool) (value r : T)
          (s s' : stat.Statistic T _useStdDev),
     stat.add count_bits value s = Returns (r, s') ->
     r = minus (stat.sum s') (stat.sum s) /\
     stat.sum s' = plus (stat.sum s) value) /\
  (forall (count_bits : Z) (_useStdDev : bool)
          (s s' : stat.Statistic exact _useStdDev) (old value : R) (r : exact),
     stat.sum s = Real old ->
     stat.add count_bits (Real value) s = Returns (r, s') ->
     r = Real value) /\
  (forall (T : Type) (fp : floating_point T) (count_bits : Z) (value : T)
          (s : stat.Statistic T false),
     exists r s', stat.add count_bits value s = Returns (r, s')).
Proof.
  split; [|split].
  - intros T fp count_bits b value r s s' Hadd.
    apply add_returns in Hadd as (-> & -> & _). auto.
  - intros count_bits b s s' old value r Hsum Hadd.
    apply add_returns in Hadd as (-> & _ & _).
    unfold stat.sum in Hsum. rewrite Hsum. cbn. f_equal. ring.
  - intros T fp count_bits value s. rewrite add_spec. cbn [andb]. eauto.
Qed.

Lemma add_returns_sum_increment_witness :
  let s := after_add 32 (Real 2) (stat.Statistic_default false) in
  stat.add_all 32 [Real 2] (stat.Statistic_default false) = Returns s /\
  exists r s', stat.add 32 (Real 3) s = Returns (r, s') /\ r = Real 3.
Proof.
  intros s. split; [reflexivity|].
  destruct add_returns_sum_increment as (_ & Hexact & Hreturns).
  destruct (Hreturns exact exact_arith 32 (Real 3) s) as (r & s' & Hadd).
  exists r, s'. split; [exact Hadd|].
  apply (Hexact 32 false s s' (0 + 2)%R 3%R r); [reflexivity | exact Hadd].
Defined.

(** ** Order of the samples *)

Section Permutations.

Variables prec emax count_bits : Z.
Variable _useStdDev : bool.

Local Abbreviation add_all :=
  (stat.add_all (fp := ieee prec emax) count_bits (_useStdDev := _useStdDev)).
Local Abbreviation fresh :=
  (stat.Statistic_default (fp := ieee prec emax) _useStdDev).

Lemma range_of_permutation (l1 l2 : list spec_float)
  (s1 s2 : stat.Statistic spec_float _useStdDev) :
  Permutation l1 l2 -> range_of l1 s1 -> range_of l2 s2 ->
  SFeqb (stat.minimum s1) (stat.minimum s2) = true /\
  SFeqb (stat.maximum s1) (stat.maximum s2) = true.
Proof.
  intros Hperm (Hmin1 & Hmax1 & _ & Hall1) (Hmin2 & Hmax2 & _ & Hall2).
  split; apply SFleb_antisym.
  - apply Hall1. eapply Permutation_in; [symmetry; exact Hperm | exact Hmin2].
  - apply Hall2. eapply Permutation_in; [exact Hperm | exact Hmin1].
  - apply Hall2. eapply Permutation_in; [exact Hperm | exact Hmax1].
  - apply Hall1. eapply Permutation_in; [symmetry; exact Hperm | exact Hmax2].
Qed.

Lemma permutation_range (l1 l2 : list spec_float)
  (s1 s2 : stat.Statistic spec_float _useStdDev) :
  add_all l1 fresh = Returns s1 -> add_all l2 fresh = Returns s2 ->
  Permutation l1 l2 ->
  Forall (fun v => is_nan v = false) l1 ->
  Z.of_nat (length l1) <= 2 ^ count_bits ->
  SFeqb (stat.minimum s1) (stat.minimum s2) = true /\
  SFeqb (stat.maximum s1) (stat.maximum s2) = true.
Proof.
  intros Hrun1 Hrun2 Hperm Hnan Hlen.
  destruct l1 as [|v l1].
  - apply Permutation_nil in Hperm. subst l2.
    injection Hrun1 as <-. injection Hrun2 as <-. split; reflexivity.
  - assert (Hne2 : l2 <> []).
    { intros ->. apply Permutation_sym, Permutation_nil in Hperm. discriminate. }
    apply (range_of_permutation (v :: l1) l2); [exact Hperm | |].
    + apply (range_add_all prec emax count_bits);
        [exact Hrun1 | discriminate | exact Hnan | exact Hlen].
    + apply (range_add_all prec emax count_bits); [exact Hrun2 | exact Hne2 | |].
      * eapply Permutation_Forall; eassumption.
      * rewrite <- (Permutation_length Hperm). exact Hlen.
Qed.

Lemma permutation_count (l1 l2 : list spec_float)
  (s1 s2 : stat.Statistic spec_float _useStdDev) :
  add_all l1 fresh = Returns s1 -> add_all l2 fresh = Returns s2 ->
  Permutation l1 l2 ->
  stat.count s1 = stat.count s2.
Proof.
  intros Hrun1 Hrun2 Hperm. unfold stat.count.
  rewrite (add_all_cnt (fp := ieee prec emax) _ _ _ _ Hrun1),
    (add_all_cnt (fp := ieee prec emax) _ _ _ _ Hrun2),
    (Permutation_length Hperm).
  reflexivity.
Qed.

End Permutations.

(** C8, the claim as stated fails, already without variance tracking, where
    every [add] returns.  [NaN, 1.0] and [1.0, NaN] are permutations of
    each other with minimum NaN and 1.0; and with an 8-bit counter, 256
    fives followed by a one give minimum 1.0, the one followed by 256 fives
    give 5.0.  Without NaN and below the wrap the two minima can still
    differ in the sign of a zero: [+0.0, -0.0] gives [+0.0] and
    [-0.0, +0.0] gives [-0.0], which compare equal. *)
Lemma permutation_counterexample :
  let one := of_int (floating_point := binary32) 1 in
  let five := of_int (floating_point := binary32) 5 in
  let fresh := stat.Statistic_default (fp := binary32) false in
  (Permutation [S754_nan; one] [one; S754_nan] /\
   exists s1 s2,
     stat.add_all (fp := binary32) 32 [S754_nan; one] fresh = Returns s1 /\
     stat.add_all (fp := binary32) 32 [one; S754_nan] fresh = Returns s2 /\
     stat.minimum s1 = S754_nan /\ stat.minimum s2 = one) /\
  (Permutation (repeat five 256 ++ [one]) ([one] ++ repeat five 256) /\
   exists s1 s2,
     stat.add_all (fp := binary32) 8 (repeat five 256 ++ [one]) fresh
     = Returns s1 /\
     stat.add_all (fp := binary32) 8 ([one] ++ repeat five 256) fresh
     = Returns s2 /\
     stat.minimum s1 = one /\ stat.minimum s2 = five /\
     SFeqb one five = false) /\
  (Permutation [S754_zero false; S754_zero true]
     [S754_zero true; S754_zero false] /\
   exists s1 s2,
     stat.add_all (fp := binary32) 32 [S754_zero false; S754_zero true] fresh
     = Returns s1 /\
     stat.add_all (fp := binary32) 32 [S754_zero true; S754_zero false] fresh
     = Returns s2 /\
     stat.minimum s1 = S754_zero false /\ stat.minimum s2 = S754_zero true).
Proof.
  intros one five fresh. split; [|split]; split.
  - apply perm_swap.
  - do 2 eexists. split; [vm_compute; reflexivity|].
    split; [vm_compute; reflexivity | split; reflexivity].
  - apply Permutation_app_comm.
  - do 2 eexists. split; [vm_compute; reflexivity|].
    split; [vm_compute; reflexivity | repeat split; reflexivity].
  - apply perm_swap.
  - do 2 eexists. split; [vm_compute; reflexivity|].
    split; [vm_compute; reflexivity | split; reflexivity].
Qed.

(** C8, amended: for every two permutations of the same samples added to a
    fresh accumulator, when the adds return (they always do without
    variance tracking), [count()] is the same; when no sample is NaN and
    there are at most [2 ^ count_bits] samples, [minimum()] and [maximum()]
    compare equal (they can differ in the sign of a zero); and in exact
    arithmetic [sum()] is the same.  Nothing is said of [sum()] in IEEE
    arithmetic, where it depends on the order. *)
Theorem permutation_same_results (prec emax count_bits : Z)
  (_useStdDev : bool) :
  (forall (l1 l2 : list spec_float)
          (s1 s2 : stat.Statistic spec_float _useStdDev),
     let fresh := stat.Statistic_default (fp := ieee prec emax) _useStdDev in
     Permutation l1 l2 ->
     stat.add_all (fp := ieee prec emax) count_bits l1 fresh = Returns s1 ->
     stat.add_all (fp := ieee prec emax) count_bits l2 fresh = Returns s2 ->
     stat.count s1 = stat.count s2 /\
     (Forall (fun v => is_nan v = false) l1 ->
      Z.of_nat (length l1) <= 2 ^ count_bits ->
      SFeqb (stat.minimum s1) (stat.minimum s2) = true /\
      SFeqb (stat.maximum s1) (stat.maximum s2) = true)) /\
  (forall (r1 r2 : list R) (s1 s2 : stat.Statistic exact _useStdDev),
     let fresh := stat.Statistic_default (fp := exact_arith) _useStdDev in
     Permutation r1 r2 ->
     stat.add_all count_bits (map Real r1) fresh = Returns s1 ->
     stat.add_all count_bits (map Real r2) fresh = Returns s2 ->
     stat.sum s1 = stat.sum s2) /\
  (forall (T : Type) (fp : floating_point T) (l : list T),
     exists s,
       stat.add_all count_bits l (stat.Statistic_default false) = Returns s).
Proof.
  split; [|split].
  - intros l1 l2 s1 s2 fresh Hperm Hrun1 Hrun2. split.
    + apply (permutation_count prec emax count_bits _useStdDev l1 l2);
        assumption.
    + intros Hnan Hlen.
      apply (permutation_range prec emax count_bits _useStdDev l1 l2);
        assumption.
  - intros r1 r2 s1 s2 fresh Hperm Hrun1 Hrun2. unfold stat.sum.
    rewrite (exact_sum_add_all count_bits _ _ _ Hrun1),
      (exact_sum_add_all count_bits _ _ _ Hrun2),
      (Rsum_permutation _ _ Hperm).
    reflexivity.
  - intros T fp l. apply add_all_disabled_returns.
Qed.

Lemma permutation_same_results_witness :
  let one := of_int (floating_point := binary32) 1 in
  let two := of_int (floating_point := binary32) 2 in
  let fresh := stat.Statistic_default (fp := binary32) false in
  (exists s1 s2,
     stat.add_all (fp := binary32) 32 [one; two] fresh = Returns s1 /\
     stat.add_all (fp := binary32) 32 [two; one] fresh = Returns s2 /\
     stat.count s1 = stat.count s2 /\
     SFeqb (stat.minimum s1) (stat.minimum s2) = true /\
     SFeqb (stat.maximum s1) (stat.maximum s2) = true) /\
  (exists s1 s2,
     stat.add_all 32 (map Real [1; 2]%R) (stat.Statistic_default false)
     = Returns s1 /\
     stat.add_all 32 (map Real [2; 1]%R) (stat.Statistic_default false)
     = Returns s2 /\
     stat.sum s1 = stat.sum s2).
Proof.
  intros one two fresh.
  destruct (permutation_same_results 24 128 32 false)
    as (Hieee & Hexact & Hreturns).
  split.
  - destruct (Hreturns spec_float binary32 [one; two]) as [s1 H1].
    destruct (Hreturns spec_float binary32 [two; one]) as [s2 H2].
    exists s1, s2. split; [exact H1 | split; [exact H2|]].
    destruct (Hieee [one; two] [two; one] s1 s2 (perm_swap two one []) H1 H2)
      as [Hc Hrange].
    split; [exact Hc|].
    apply Hrange; [repeat constructor | vm_compute; discriminate].
  - destruct (Hreturns exact exact_arith (map Real [1; 2]%R)) as [s1 H1].
    destruct (Hreturns exact exact_arith (map Real [2; 1]%R)) as [s2 H2].
    exists s1, s2. split; [exact H1 | split; [exact H2|]].
    apply (Hexact [1; 2]%R [2; 1]%R s1 s2); [apply perm_swap | exact H1 | exact H2].
Defined.

(** ** Rounding in [SpecFloat] *)

(** [SpecFloat] states its operations with the integer operations of the
    prelude; the lemmas of [ZArith] are about their namesakes in [Z]. *)
Ltac stdlib_ops :=
  change IntDef.Z.add with Z.add in *;
  change IntDef.Z.sub with Z.sub in *;
  change IntDef.Z.mul with Z.mul in *;
  change IntDef.Z.opp with Z.opp in *;
  change IntDef.Z.max with Z.max in *;
  change IntDef.Z.min with Z.min in *;
  change IntDef.Z.leb with Z.leb in *;
  change IntDef.Z.eqb with Z.eqb in *;
  change IntDef.Z.even with Z.even in *;
  change IntDef.Z.div2 with Z.div2 in *;
  change IntDef.Z.shiftl with Z.shiftl in *;
  change IntDef.Z.div_eucl with Z.div_eucl in *;
  change IntDef.Z.sqrtrem with Z.sqrtrem in *;
  change @PosDef.Pos.iter with @Pos.iter in *;
  change PosDef.Pos.mul with Pos.mul in *.

Lemma Zdigits2_log2 (m : Z) : 0 < m -> Zdigits2 m = Z.log2 m + 1.
Proof.
  destruct m as [|p|p]; try lia. intros _. cbn [Zdigits2].
  assert (H : forall q, digits2_pos q = Pos.size q)
    by (induction q; cbn; congruence).
  rewrite H. destruct p; cbn; lia.
Qed.

Lemma iter_pos_iter {A : Type} (f : A -> A) (p : positive) (x : A) :
  SpecFloat.iter_pos f p x = Pos.iter f x p.
Proof.
  revert x. induction p as [p IH|p IH|]; intros x; cbn.
  - rewrite !IH, <- !Pos.iter_swap. reflexivity.
  - rewrite !IH. reflexivity.
  - reflexivity.
Qed.

Lemma shr_1_m (r : shr_record) :
  0 <= shr_m r -> shr_m (shr_1 r) = Z.div2 (shr_m r).
Proof. destruct r as [[|[p|p|]|p] b s]; cbn; intros; try reflexivity; lia. Qed.

Lemma iter_shr_1_m (p : positive) (r : shr_record) :
  0 <= shr_m r -> shr_m (SpecFloat.iter_pos shr_1 p r) = Z.shiftr (shr_m r) (Z.pos p).
Proof.
  intros Hr. rewrite iter_pos_iter.
  change (Z.shiftr (shr_m r) (Z.pos p)) with (Pos.iter Z.div2 (shr_m r) p).
  induction p as [|p IH] using Pos.peano_ind.
  - cbn. apply shr_1_m, Hr.
  - rewrite !Pos.iter_succ, <- IH. apply shr_1_m.
    rewrite IH. change (Pos.iter Z.div2 (shr_m r) p) with (Z.shiftr (shr_m r) (Z.pos p)).
    apply Z.shiftr_nonneg, Hr.
Qed.

Lemma shr_record_of_loc_m (m : Z) (l : location) : shr_m (shr_record_of_loc m l) = m.
Proof. destruct l as [|[]]; reflexivity. Qed.

Section Rounding.
Variables prec emax : Z.

Lemma shr_fexp_nonneg (m e : Z) (l : location) :
  0 <= m -> 0 <= shr_m (fst (shr_fexp prec emax m e l)).
Proof.
  intros Hm. unfold shr_fexp, shr.
  destruct (fexp prec emax (Zdigits2 m + e) - e) as [|p|p]; cbn [fst];
    try (rewrite shr_record_of_loc_m; exact Hm).
  rewrite iter_shr_1_m; rewrite shr_record_of_loc_m; [|exact Hm].
  apply Z.shiftr_nonneg, Hm.
Qed.

Lemma round_nearest_even_bounds (m : Z) (l : location) :
  m <= round_nearest_even m l <= m + 1.
Proof. destruct l as [|[]]; cbn; try lia. destruct (Z.even m); lia. Qed.

Lemma binary_round_aux_sign (sx : bool) (mx ex : Z) (lx : location) :
  0 <= mx -> has_sign sx (binary_round_aux prec emax sx mx ex lx).
Proof.
  intros Hm. unfold binary_round_aux.
  pose proof (shr_fexp_nonneg mx ex lx Hm) as H1.
  destruct (shr_fexp prec emax mx ex lx) as [r1 e1]. cbn [fst] in H1.
  pose proof (round_nearest_even_bounds (shr_m r1) (loc_of_shr_record r1)) as Hr.
  pose proof (shr_fexp_nonneg (round_nearest_even (shr_m r1) (loc_of_shr_record r1))
                e1 loc_Exact ltac:(lia)) as H2.
  destruct (shr_fexp prec emax _ e1 loc_Exact) as [r2 e2]. cbn [fst] in H2.
  destruct (shr_m r2) as [|p|p]; [reflexivity | | lia].
  destruct (e2 <=? emax - prec); reflexivity.
Qed.

Lemma binary_round_sign (sx : bool) (mx : positive) (ex : Z) :
  has_sign sx (binary_round prec emax sx mx ex).
Proof.
  unfold binary_round. destruct (shl_align mx ex _) as [mz ez].
  apply binary_round_aux_sign. lia.
Qed.

Hypothesis prec_gt_0 : 0 < prec.
Hypothesis prec_lt_emax : prec < emax.

Lemma shr_fexp_pos (m e : Z) (l : location) :
  0 < m -> emin prec emax < Zdigits2 m + e ->
  let '(r, e') := shr_fexp prec emax m e l in
  0 < shr_m r /\
  Zdigits2 (shr_m r) + e' = Zdigits2 m + e /\
  (e' = e \/ e' = fexp prec emax (Zdigits2 m + e)).
Proof.
  intros Hm Hd. unfold shr_fexp, shr.
  destruct (fexp prec emax (Zdigits2 m + e) - e) as [|p|p] eqn:Hn;
    try (rewrite shr_record_of_loc_m; auto).
  rewrite iter_shr_1_m; rewrite shr_record_of_loc_m; [|lia].
  rewrite Zdigits2_log2 in * by exact Hm.
  assert (Hp : Z.pos p <= Z.log2 m) by (unfold fexp in Hn; stdlib_ops; lia).
  assert (Hpos : 0 < Z.shiftr m (Z.pos p)).
  { rewrite Z.shiftr_div_pow2 by lia.
    apply Z.div_str_pos. split; [apply Z.pow_pos_nonneg; lia|].
    etransitivity; [apply Z.pow_le_mono_r; [lia | exact Hp]|].
    apply Z.log2_spec, Hm. }
  rewrite (Zdigits2_log2 (Z.shiftr m (Z.pos p))) by exact Hpos.
  rewrite (Zdigits2_log2 m) by exact Hm.
  rewrite Z.log2_shiftr by exact Hm.
  split; [exact Hpos|]. split; [|right]; lia.
Qed.

Lemma binary_round_aux_finite (sx : bool) (mx ex : Z) (lx : location) :
  0 < mx ->
  emin prec emax < Zdigits2 mx + ex ->
  Zdigits2 mx + ex < emax ->
  ex <= emax - prec ->
  exists m e, binary_round_aux prec emax sx mx ex lx = S754_finite sx m e.
Proof.
  intros Hm Hlo Hhi Hex. unfold binary_round_aux.
  pose proof (shr_fexp_pos mx ex lx Hm Hlo) as H1.
  destruct (shr_fexp prec emax mx ex lx) as [r1 e1].
  destruct H1 as (Hm1 & Hd1 & He1).
  pose proof (round_nearest_even_bounds (shr_m r1) (loc_of_shr_record r1)) as Hr.
  set (m2 := round_nearest_even (shr_m r1) (loc_of_shr_record r1)) in *.
  assert (Hm2 : 0 < m2) by lia.
  assert (Hd2 : Zdigits2 (shr_m r1) <= Zdigits2 m2 <= Zdigits2 (shr_m r1) + 1).
  { rewrite !Zdigits2_log2 by assumption. split.
    - apply Z.add_le_mono_r, Z.log2_le_mono. lia.
    - apply Z.add_le_mono_r.
      etransitivity; [apply Z.log2_le_mono; apply (proj2 Hr)|].
      apply Z.log2_succ_le. }
  pose proof (shr_fexp_pos m2 e1 loc_Exact Hm2 ltac:(lia)) as H2.
  destruct (shr_fexp prec emax m2 e1 loc_Exact) as [r2 e2].
  destruct H2 as (Hm3 & Hd3 & He2).
  destruct (shr_m r2) as [|p|p]; try lia.
  assert (Hle : e2 <= emax - prec).
  { unfold fexp, emin in *. stdlib_ops. lia. }
  apply Z.leb_le in Hle. rewrite Hle. eauto.
Qed.

Lemma digits2_iter_xO (p d : positive) :
  Z.pos (digits2_pos (Pos.iter xO p d)) = Z.pos (digits2_pos p) + Z.pos d.
Proof.
  induction d as [|d IH] using Pos.peano_ind.
  - cbn. lia.
  - rewrite Pos.iter_succ. cbn [digits2_pos]. lia.
Qed.

(** The conversion of a positive integer below [2 ^ (emax - 1)]. *)
Lemma of_int_finite (n : Z) :
  0 < n < 2 ^ (emax - 1) ->
  exists m e, binary_normalize prec emax n 0 false = S754_finite false m e.
Proof.
  intros [Hn Hlt]. destruct n as [|p|p]; try lia.
  cbn [binary_normalize]. unfold binary_round.
  assert (Hd : Z.pos (digits2_pos p) < emax).
  { change (Z.pos (digits2_pos p)) with (Zdigits2 (Z.pos p)).
    rewrite Zdigits2_log2 by lia.
    assert (Z.log2 (Z.pos p) < emax - 1) by (apply Z.log2_lt_pow2; lia). lia. }
  assert (Hd0 : 0 < Z.pos (digits2_pos p)) by lia.
  unfold shl_align.
  destruct (fexp prec emax (Z.pos (digits2_pos p) + 0) - 0) as [|q|q] eqn:Hf.
  - apply binary_round_aux_finite; cbn [Zdigits2]; unfold emin, fexp in *; stdlib_ops; lia.
  - apply binary_round_aux_finite; cbn [Zdigits2]; unfold emin, fexp in *; stdlib_ops; lia.
  - apply binary_round_aux_finite; cbn [Zdigits2];
      try rewrite digits2_iter_xO; unfold emin, fexp in *; stdlib_ops; lia.
Qed.

End Rounding.

(** ** When the IEEE operations return NaN *)

Lemma has_sign_not_nan (sx : bool) (x : spec_float) :
  has_sign sx x -> is_nan x = false.
Proof. destruct x; cbn; [reflexivity .. | contradiction | reflexivity]. Qed.

Section Operations.

Variables prec emax : Z.

Lemma binary_normalize_not_nan (m e : Z) (szero : bool) :
  is_nan (binary_normalize prec emax m e szero) = false.
Proof.
  destruct m as [|p|p]; cbn [binary_normalize]; [reflexivity | |];
    eapply has_sign_not_nan, binary_round_sign.
Qed.

(** A sum is NaN only for a NaN operand or for infinities of opposite
    signs. *)
Lemma SFadd_not_nan (x y : spec_float) :
  is_nan x = false -> is_finite y = true ->
  is_nan (SFadd prec emax x y) = false.
Proof.
  destruct x as [sx|sx| |sx mx ex], y as [sy|sy| |sy my ey];
    cbn [is_nan is_finite SFadd]; try discriminate; try reflexivity; intros _ _.
  - destruct sx, sy; reflexivity.
  - apply binary_normalize_not_nan.
Qed.

Lemma SFdiv_core_binary_nonneg (mx my : positive) (ex ey : Z) :
  0 <= fst (fst (SFdiv_core_binary prec emax (Z.pos mx) ex (Z.pos my) ey)).
Proof.
  unfold SFdiv_core_binary. stdlib_ops.
  set (s := ex - ey - _).
  set (m' := match s with Z.pos _ => Z.shiftl (Z.pos mx) s | 0 => Z.pos mx
             | Z.neg _ => 0 end).
  assert (Hm : 0 <= m').
  { subst m'. destruct s; try lia. apply Z.shiftl_nonneg. lia. }
  pose proof (Z.div_pos m' (Z.pos my) Hm ltac:(lia)) as Hq.
  unfold Z.div in Hq. destruct (Z.div_eucl m' (Z.pos my)) as [q r]. exact Hq.
Qed.

Lemma SFdiv_finite_sign (sx sy : bool) (mx my : positive) (ex ey : Z) :
  has_sign (xorb sx sy)
    (SFdiv prec emax (S754_finite sx mx ex) (S754_finite sy my ey)).
Proof.
  cbn [SFdiv].
  pose proof (SFdiv_core_binary_nonneg mx my ex ey) as Hq.
  destruct (SFdiv_core_binary prec emax (Z.pos mx) ex (Z.pos my) ey)
    as [[mz ez] lz].
  apply binary_round_aux_sign. exact Hq.
Qed.

(** Dividing by a positive finite number: NaN only from NaN, and the sign
    is kept. *)
Lemma SFdiv_positive_not_nan (x d : spec_float) :
  is_nan x = false -> is_positive d = true ->
  is_nan (SFdiv prec emax x d) = false.
Proof.
  destruct d as [sd|sd| |[] md ed]; try discriminate.
  destruct x as [sx|sx| |sx mx ex]; try discriminate; intros _ _;
    try reflexivity.
  eapply has_sign_not_nan, SFdiv_finite_sign.
Qed.

Hypothesis prec_gt_0 : 0 < prec.
Hypothesis prec_lt_emax : prec < emax.

(** The counter converts to a positive finite number. *)
Lemma of_int_positive (n : Z) :
  0 < n < 2 ^ (emax - 1) ->
  is_positive (of_int (floating_point := ieee prec emax) n) = true.
Proof.
  intros Hn.
  destruct (of_int_finite prec emax prec_gt_0 prec_lt_emax n Hn) as (m & e & H).
  cbn [of_int ieee]. rewrite H. reflexivity.
Qed.

End Operations.

(** * Further properties of the code *)

(** ** The counter *)

(** X1: in every reachable state (one that the calls reach by returning),
    [count()] is the number of values added since the last [clear] (or
    since construction), modulo [2 ^ count_bits]: it is that number while
    it fits the counter, and it lies in the range of the counter type. *)
Theorem count_is_adds_since_clear {T : Type} {fp : floating_point T}
  (count_bits : Z) (_useStdDev : bool) (calls : list stat.call)
  (s : stat.Statistic T _useStdDev) :
  let n := Z.of_nat (length (stat.since_clear calls)) in
  stat.run count_bits _useStdDev calls = Returns s ->
  stat.count s = n mod 2 ^ count_bits /\
  (n < 2 ^ count_bits -> stat.count s = n) /\
  (0 <= count_bits -> 0 <= stat.count s < 2 ^ count_bits).
Proof.
  intros n Hrun. apply run_since_clear in Hrun. unfold stat.count.
  rewrite (add_all_cnt count_bits _ _ _ Hrun). fold n.
  split; [reflexivity | split].
  - intros Hn. apply Z.mod_small. lia.
  - intros Hbits. apply Z.mod_pos_bound, Z.pow_pos_nonneg; lia.
Qed.

Lemma count_is_adds_since_clear_witness :
  let one := of_int (floating_point := binary32) 1 in
  exists s,
    stat.run (fp := binary32) 8 false
      [stat.Add one; stat.Clear; stat.Add one; stat.Add one] = Returns s /\
    stat.count s = 2 /\ 0 <= stat.count s < 2 ^ 8.
Proof.
  intros one.
  destruct (run_disabled_returns (fp := binary32) 8
              [stat.Add one; stat.Clear; stat.Add one; stat.Add one])
    as [s Hrun].
  exists s. split; [exact Hrun|].
  pose proof (count_is_adds_since_clear (fp := binary32) 8 false
                [stat.Add one; stat.Clear; stat.Add one; stat.Add one] s) as H.
  cbv zeta in H. destruct (H Hrun) as (_ & Hsmall & Hrange).
  split; [apply Hsmall; reflexivity | apply Hrange; lia].
Defined.

(** ** One call of [add] and the range *)

(** X3: once [count() != 0], a call of [add] that returns has changed at
    most one of [_min] and [_max], and only to the value added. *)
Theorem add_moves_one_bound {T : Type} {fp : floating_point T}
  (count_bits : Z) (_useStdDev : bool) (value r : T)
  (s s' : stat.Statistic T _useStdDev) :
  stat.count s <> 0 ->
  stat.add count_bits value s = Returns (r, s') ->
  (stat.minimum s' = stat.minimum s /\
   (stat.maximum s' = stat.maximum s \/ stat.maximum s' = value)) \/
  (stat.minimum s' = value /\ stat.maximum s' = stat.maximum s).
Proof.
  intros Hc Hadd. apply add_returns in Hadd as (_ & -> & _).
  unfold stat.count, stat.minimum, stat.maximum in *.
  cbn [after_add stat._min stat._max].
  rewrite (proj2 (Z.eqb_neq _ _) Hc).
  destruct (less value (stat._min _ s)); [right; auto|].
  destruct (greater value (stat._max _ s)); left; auto.
Qed.

Lemma add_moves_one_bound_witness :
  let one := of_int (floating_point := binary32) 1 in
  let two := of_int (floating_point := binary32) 2 in
  let five := of_int (floating_point := binary32) 5 in
  exists s r s',
    stat.add_all (fp := binary32) 32 [two; five]
      (stat.Statistic_default (fp := binary32) false) = Returns s /\
    stat.add (fp := binary32) 32 one s = Returns (r, s') /\
    ((stat.minimum s' = stat.minimum s /\
      (stat.maximum s' = stat.maximum s \/ stat.maximum s' = one)) \/
     (stat.minimum s' = one /\ stat.maximum s' = stat.maximum s)).
Proof.
  intros one two five. do 3 eexists.
  split; [vm_compute; reflexivity|].
  split; [vm_compute; reflexivity|].
  eapply (add_moves_one_bound (fp := binary32) 32 false one).
  - vm_compute. discriminate.
  - vm_compute. reflexivity.
Defined.

(** ** Sum, average and range in exact arithmetic *)

Section ExactRange.

Variable count_bits : Z.
Variable _useStdDev : bool.

Local Abbreviation add_all :=
  (stat.add_all (fp := exact_arith) count_bits (_useStdDev := _useStdDev)).
Local Abbreviation fresh :=
  (stat.Statistic_default (fp := exact_arith) _useStdDev).

Lemma exact_average (l : list R) (s : stat.Statistic exact _useStdDev) :
  add_all (map Real l) fresh = Returns s ->
  1 <= Z.of_nat (length l) < 2 ^ count_bits ->
  stat.average s = Real (Rmean l).
Proof.
  intros Hrun [Hpos Hlen].
  pose proof (exact_sum_add_all count_bits _ _ _ Hrun) as Hs.
  pose proof (add_all_cnt_small count_bits _ _ _ Hrun) as Hc.
  rewrite length_map in Hc. specialize (Hc Hlen).
  unfold stat.average. rewrite Hc, Hs.
  destruct (Z.of_nat (length l) =? 0) eqn:E; [apply Z.eqb_eq in E; lia|].
  cbn [divide of_int exact_arith exact_divide].
  assert (0 < IZR (Z.of_nat (length l)))%R by (apply IZR_lt; lia).
  destruct (Req_EM_T _ 0) as [E0|_]; [lra | reflexivity].
Qed.

Lemma exact_less_real (x y : R) :
  exact_less (Real x) (Real y) = true -> (x < y)%R.
Proof. cbn. destruct (Rlt_dec x y); [auto | discriminate]. Qed.

Lemma exact_less_real_false (x y : R) :
  exact_less (Real x) (Real y) = false -> (y <= x)%R.
Proof. cbn. destruct (Rlt_dec x y); [discriminate | lra]. Qed.

(** The recorded range is the least and the greatest sample. *)
Lemma exact_range (l : list R) (s : stat.Statistic exact _useStdDev) :
  add_all (map Real l) fresh = Returns s ->
  l <> [] -> Z.of_nat (length l) <= 2 ^ count_bits ->
  exists lo hi : R,
    stat._min _ s = Real lo /\ stat._max _ s = Real hi /\
    In lo l /\ In hi l /\ forall x, In x l -> (lo <= x <= hi)%R.
Proof.
  revert s. induction l as [|v l IH] using rev_ind; [contradiction|].
  intros s Hrun _ Hlen.
  rewrite length_app in Hlen. cbn [length] in Hlen.
  rewrite map_app in Hrun. cbn [map] in Hrun.
  apply add_all_snoc_returns in Hrun as (s1 & Hrun1 & -> & _).
  cbn [after_add stat._min stat._max].
  destruct l as [|u l].
  - injection Hrun1 as <-.
    cbn [stat._cnt stat.Statistic_default Z.eqb].
    exists v, v.
    split; [reflexivity | split; [reflexivity | split; [|split]]];
      try (left; reflexivity).
    intros x [<- | []]. lra.
  - destruct (IH s1 Hrun1) as (lo & hi & Hmin & Hmax & Hlo & Hhi & Hall);
      [discriminate | lia |].
    pose proof (add_all_cnt_small count_bits _ _ _ Hrun1) as Hc.
    rewrite length_map in Hc. rewrite Hc by lia. cbn [length].
    destruct (Z.of_nat (S (length l)) =? 0) eqn:E;
      [apply Z.eqb_eq in E; lia|].
    rewrite Hmin, Hmax. unfold greater. cbn [less exact_arith].
    assert (Hlohi : (lo <= hi)%R) by (apply (Hall lo Hlo)).
    destruct (exact_less (Real v) (Real lo)) eqn:Hlt;
      [|destruct (exact_less (Real hi) (Real v)) eqn:Hgt].
    + apply exact_less_real in Hlt. exists v, hi.
      split; [reflexivity | split; [reflexivity | split; [|split]]].
      * apply in_or_app. right. left. reflexivity.
      * apply in_or_app. left. exact Hhi.
      * intros x Hx. apply in_app_or in Hx as [Hx | [<- | []]];
          [specialize (Hall x Hx) |]; lra.
    + apply exact_less_real_false in Hlt. apply exact_less_real in Hgt.
      exists lo, v.
      split; [reflexivity | split; [reflexivity | split; [|split]]].
      * apply in_or_app. left. exact Hlo.
      * apply in_or_app. right. left. reflexivity.
      * intros x Hx. apply in_app_or in Hx as [Hx | [<- | []]];
          [specialize (Hall x Hx) |]; lra.
    + apply exact_less_real_false in Hlt. apply exact_less_real_false in Hgt.
      exists lo, hi.
      split; [reflexivity | split; [reflexivity | split; [|split]]].
      * apply in_or_app. left. exact Hlo.
      * apply in_or_app. left. exact Hhi.
      * intros x Hx. apply in_app_or in Hx as [Hx | [<- | []]];
          [specialize (Hall x Hx) |]; lra.
Qed.

Lemma Rsum_bounds (lo hi : R) (l : list R) :
  (forall x, In x l -> (lo <= x <= hi)%R) ->
  (IZR (Z.of_nat (length l)) * lo <= Rsum l
   <= IZR (Z.of_nat (length l)) * hi)%R.
Proof.
  induction l as [|a l IH]; intros Hall.
  - unfold Rsum. cbn. lra.
  - cbn [length]. rewrite Rsum_cons, Nat2Z.inj_succ, succ_IZR.
    pose proof (Hall a (or_introl eq_refl)) as Ha.
    assert (Hl : forall x, In x l -> (lo <= x <= hi)%R)
      by (intros x Hx; apply Hall; right; exact Hx).
    specialize (IH Hl). lra.
Qed.

Lemma Rmean_bounds (lo hi : R) (l : list R) :
  l <> [] ->
  (forall x, In x l -> (lo <= x <= hi)%R) ->
  (lo <= Rmean l <= hi)%R.
Proof.
  intros Hne Hall. pose proof (Rsum_bounds lo hi l Hall) as [Hl Hh].
  assert (Hn : (0 < IZR (Z.of_nat (length l)))%R).
  { apply IZR_lt. destruct l; [contradiction | cbn [length]; lia]. }
  unfold Rmean. split.
  - apply Rmult_le_reg_r with (IZR (Z.of_nat (length l))); [exact Hn|].
    unfold Rdiv. rewrite Rmult_assoc, Rinv_l by lra. lra.
  - apply Rmult_le_reg_r with (IZR (Z.of_nat (length l))); [exact Hn|].
    unfold Rdiv. rewrite Rmult_assoc, Rinv_l by lra. lra.
Qed.

End ExactRange.

(** X4: in exact arithmetic and before the counter wraps, when the adds
    return (they always do without variance tracking), [sum()] is the sum
    of the samples and [average()] their arithmetic mean. *)
Theorem exact_sum_and_average (count_bits : Z) (_useStdDev : bool)
  (values : list R) (s : stat.Statistic exact _useStdDev) :
  1 <= Z.of_nat (length values) < 2 ^ count_bits ->
  stat.add_all count_bits (map Real values)
    (stat.Statistic_default _useStdDev) = Returns s ->
  stat.sum s = Real (Rsum values) /\
  stat.average s = Real (Rmean values).
Proof.
  intros Hlen Hrun. split.
  - apply (exact_sum_add_all count_bits _ _ _ Hrun).
  - apply (exact_average count_bits _useStdDev values s Hrun Hlen).
Qed.

Lemma exact_sum_and_average_witness :
  exists s,
    stat.add_all 32 (map Real [2; 4; 9]%R) (stat.Statistic_default false)
    = Returns s /\
    stat.sum s = Real (Rsum [2; 4; 9]%R) /\
    stat.average s = Real (Rmean [2; 4; 9]%R).
Proof.
  destruct (add_all_disabled_returns (fp := exact_arith) 32
              (map Real [2; 4; 9]%R) (stat.Statistic_default false))
    as [s Hrun].
  exists s. split; [exact Hrun|].
  apply (exact_sum_and_average 32 false [2; 4; 9]%R s); [cbn; lia | exact Hrun].
Defined.

(** X10: in exact arithmetic and before the counter wraps, when the adds
    return (they always do without variance tracking), [minimum()] and
    [maximum()] are the least and the greatest of the samples, and
    [average()] lies between them. *)
Theorem exact_average_within_range (count_bits : Z) (_useStdDev : bool)
  (values : list R) (s : stat.Statistic exact _useStdDev) :
  1 <= Z.of_nat (length values) < 2 ^ count_bits ->
  stat.add_all count_bits (map Real values)
    (stat.Statistic_default _useStdDev) = Returns s ->
  exists lo mid hi : R,
    stat.minimum s = Real lo /\
    stat.average s = Real mid /\
    stat.maximum s = Real hi /\
    In lo values /\ In hi values /\
    (forall x, In x values -> (lo <= x <= hi)%R) /\
    (lo <= mid <= hi)%R.
Proof.
  intros [Hpos Hlen] Hrun.
  assert (Hne : values <> []) by (intros ->; cbn in Hpos; lia).
  destruct (exact_range count_bits _useStdDev values s Hrun Hne ltac:(lia))
    as (lo & hi & Hmin & Hmax & Hlo & Hhi & Hall).
  pose proof (exact_average count_bits _useStdDev values s Hrun
                (conj Hpos Hlen)) as Havg.
  exists lo, (Rmean values), hi.
  split; [exact Hmin | split; [exact Havg | split; [exact Hmax|]]].
  split; [exact Hlo | split; [exact Hhi | split; [exact Hall|]]].
  apply (Rmean_bounds lo hi values Hne Hall).
Qed.

Lemma exact_average_within_range_witness :
  exists s,
    stat.add_all 32 (map Real [2; 4; 9]%R) (stat.Statistic_default false)
    = Returns s /\
    exists lo mid hi : R,
      stat.minimum s = Real lo /\
      stat.average s = Real mid /\
      stat.maximum s = Real hi /\
      In lo [2; 4; 9]%R /\ In hi [2; 4; 9]%R /\
      (forall x, In x [2; 4; 9]%R -> (lo <= x <= hi)%R) /\
      (lo <= mid <= hi)%R.
Proof.
  destruct (add_all_disabled_returns (fp := exact_arith) 32
              (map Real [2; 4; 9]%R) (stat.Statistic_default false))
    as [s Hrun].
  exists s. split; [exact Hrun|].
  apply (exact_average_within_range 32 false [2; 4; 9]%R s);
    [cbn; lia | exact Hrun].
Defined.

(** ** Finite samples in IEEE arithmetic *)

Section FiniteSamples.

Variables prec emax count_bits : Z.
Hypothesis prec_gt_0 : 0 < prec.
Hypothesis prec_lt_emax : prec < emax.
Hypothesis count_bits_lt_emax : count_bits < emax.

Lemma counter_positive (n : Z) :
  0 < n < 2 ^ count_bits ->
  is_positive (of_int (floating_point := ieee prec emax) n) = true.
Proof.
  intros Hn. apply of_int_positive; try assumption.
  assert (0 <= count_bits).
  { destruct (Z.le_gt_cases 0 count_bits) as [H | H]; [exact H|].
    rewrite Z.pow_neg_r in Hn by exact H. lia. }
  assert (2 ^ count_bits <= 2 ^ (emax - 1)) by (apply Z.pow_le_mono_r; lia).
  lia.
Qed.

Lemma finite_sum (b : bool) (l : list spec_float)
  (s : stat.Statistic spec_float b) :
  stat.add_all (fp := ieee prec emax) count_bits l
    (stat.Statistic_default (fp := ieee prec emax) b) = Returns s ->
  Forall (fun v => is_finite v = true) l ->
  is_nan (stat._sum _ s) = false.
Proof.
  revert s. induction l as [|v l IH] using rev_ind; intros s.
  - intros [= <-] _. reflexivity.
  - intros Hrun Hall. apply Forall_app in Hall as [Hl Hv].
    inversion_clear Hv as [|? ? Hv' _].
    apply add_all_snoc_returns in Hrun as (s1 & Hrun1 & -> & _).
    cbn [after_add stat._sum plus ieee].
    apply SFadd_not_nan; [apply (IH s1 Hrun1 Hl) | exact Hv'].
Qed.

End FiniteSamples.

(** X6: in IEEE arithmetic, in every reachable state (one that the calls
    reach by returning), when every value added since the last [clear] is
    finite, [sum()] is not NaN, and [average()] is not NaN once
    [count() != 0]: overflow can make them infinite, never NaN.  For a
    format with [0 < prec < emax] and a counter of fewer than [emax] bits,
    so that every count converts to a finite number. *)
Theorem finite_samples_results (prec emax count_bits : Z) (_useStdDev : bool)
  (calls : list stat.call) (s : stat.Statistic spec_float _useStdDev) :
  0 < prec < emax -> 0 <= count_bits < emax ->
  Forall (fun v => is_finite v = true) (stat.since_clear calls) ->
  stat.run (fp := ieee prec emax) count_bits _useStdDev calls = Returns s ->
  is_nan (stat.sum s) = false /\
  (stat.count s <> 0 ->
   is_nan (stat.average (fp := ieee prec emax) s) = false).
Proof.
  intros [Hprec Hemax] [Hbits Hbits'] Hfin Hrun.
  apply (run_since_clear (fp := ieee prec emax)) in Hrun.
  pose proof (finite_sum prec emax count_bits _ _ _ Hrun Hfin) as Hsum.
  pose proof (add_all_cnt (fp := ieee prec emax) count_bits _ _ _ Hrun) as Hc.
  pose proof (Z.mod_pos_bound (Z.of_nat (length (stat.since_clear calls)))
                (2 ^ count_bits) ltac:(apply Z.pow_pos_nonneg; lia)) as Hrange.
  rewrite <- Hc in Hrange.
  split; [exact Hsum|].
  unfold stat.count, stat.average. intros Hn.
  rewrite (proj2 (Z.eqb_neq _ _) Hn).
  apply SFdiv_positive_not_nan; [exact Hsum|].
  apply (counter_positive prec emax count_bits); try assumption. lia.
Qed.

Lemma finite_samples_results_witness :
  let one := of_int (floating_point := binary32) 1 in
  let two := of_int (floating_point := binary32) 2 in
  exists s,
    stat.run (fp := binary32) 32 false [stat.Add one; stat.Add two]
    = Returns s /\
    is_nan (stat.sum s) = false /\
    is_nan (stat.average (fp := binary32) s) = false.
Proof.
  intros one two.
  destruct (run_disabled_returns (fp := binary32) 32
              [stat.Add one; stat.Add two]) as [s Hrun].
  exists s. split; [exact Hrun|].
  destruct (finite_samples_results 24 128 32 false
              [stat.Add one; stat.Add two] s) as [Hsum Havg];
    [lia | lia | repeat constructor | exact Hrun |].
  split; [exact Hsum|]. apply Havg.
  vm_compute in Hrun. injection Hrun as <-. vm_compute. discriminate.
Defined.

(** ** A single sample *)

(** X7: one [add] on a default-constructed accumulator with variance
    tracking returns, whatever the value (NaN and the infinities included),
    and then [count()] is 1, [minimum()] and [maximum()] are the value,
    [variance()] and [pop_stdev()] are [+0.0], and [unbiased_stdev()] is
    NaN. *)
Theorem single_sample_results (prec emax count_bits : Z) (value : spec_float) :
  0 < prec < emax -> 1 <= count_bits ->
  exists r s,
    stat.add (fp := ieee prec emax) count_bits value
      (stat.Statistic_default (fp := ieee prec emax) true) = Returns (r, s) /\
    stat.count s = 1 /\
    stat.minimum s = value /\
    stat.maximum s = value /\
    stat.variance (fp := ieee prec emax) s = S754_zero false /\
    stat.pop_stdev (fp := ieee prec emax) s = S754_zero false /\
    stat.unbiased_stdev (fp := ieee prec emax) s = S754_nan.
Proof.
  intros [Hprec Hemax] Hbits.
  assert (Hpow : 2 <= 2 ^ count_bits).
  { change 2 with (2 ^ 1) at 1. apply Z.pow_le_mono_r; lia. }
  assert (Hmod : (0 + 1) mod 2 ^ count_bits = 1) by (apply Z.mod_small; lia).
  destruct (of_int_finite prec emax Hprec Hemax 1) as (m & e & Hone).
  { split; [lia|]. apply Z.pow_gt_1; lia. }
  do 2 eexists. split.
  - rewrite add_spec. cbn [stat._cnt stat.Statistic_default andb].
    rewrite Hmod. reflexivity.
  - unfold stat.count, stat.minimum, stat.maximum, stat.variance,
      stat.pop_stdev, stat.unbiased_stdev.
    cbn [after_add stat._cnt stat._min stat._max stat._extra
         stat.Statistic_default negb].
    rewrite Hmod.
    cbn [Z.eqb Z.ltb Z.compare Pos.compare Pos.compare_cont].
    cbn [divide sqrt of_int ieee]. rewrite Hone.
    repeat split.
Qed.

Lemma single_sample_results_witness :
  exists r s,
    stat.add (fp := binary32) 32 (S754_infinity true)
      (stat.Statistic_default (fp := binary32) true) = Returns (r, s) /\
    stat.count s = 1 /\
    stat.minimum s = S754_infinity true /\
    stat.maximum s = S754_infinity true /\
    stat.variance (fp := binary32) s = S754_zero false /\
    stat.pop_stdev (fp := binary32) s = S754_zero false /\
    stat.unbiased_stdev (fp := binary32) s = S754_nan.
Proof.
  apply (single_sample_results 24 128 32 (S754_infinity true)); lia.
Defined.

(** ** A NaN sample *)

Section NanPoison.

Variables prec emax count_bits : Z.

Lemma is_nan_eq (x : spec_float) : is_nan x = true -> x = S754_nan.
Proof. destruct x; try discriminate; reflexivity. Qed.

Lemma SFadd_nan_r (x : spec_float) : SFadd prec emax x S754_nan = S754_nan.
Proof. destruct x; reflexivity. Qed.

Lemma nan_sample_sum (b : bool) (before after : list spec_float)
  (s0 s : stat.Statistic spec_float b) :
  stat.add_all (fp := ieee prec emax) count_bits
    (before ++ S754_nan :: after) s0 = Returns s ->
  stat._sum _ s = S754_nan.
Proof.
  revert s. induction after as [|v after IH] using rev_ind; intros s Hrun.
  - apply add_all_snoc_returns in Hrun as (s1 & _ & -> & _).
    cbn [after_add stat._sum plus ieee]. apply SFadd_nan_r.
  - rewrite app_comm_cons, app_assoc in Hrun.
    apply add_all_snoc_returns in Hrun as (s1 & Hrun1 & -> & _).
    cbn [after_add stat._sum plus ieee]. rewrite (IH s1 Hrun1). reflexivity.
Qed.

End NanPoison.

(** X8: a NaN sample stays in the sum: once NaN was added, whatever else is
    added before or after it, in every state that the adds reach by
    returning [sum()] is NaN, and [average()] is NaN once [count() != 0]. *)
Theorem nan_sample_poisons (prec emax count_bits : Z) (_useStdDev : bool)
  (before after : list spec_float)
  (s0 s : stat.Statistic spec_float _useStdDev) :
  stat.add_all (fp := ieee prec emax) count_bits
    (before ++ S754_nan :: after) s0 = Returns s ->
  stat.sum s = S754_nan /\
  (stat.count s <> 0 -> stat.average (fp := ieee prec emax) s = S754_nan).
Proof.
  intros Hrun.
  pose proof (nan_sample_sum prec emax count_bits _ _ _ _ _ Hrun) as Hsum.
  split; [exact Hsum|].
  intros Hc. unfold stat.count in Hc. unfold stat.average.
  rewrite (proj2 (Z.eqb_neq _ _) Hc), Hsum. reflexivity.
Qed.

Lemma nan_sample_poisons_witness :
  let one := of_int (floating_point := binary32) 1 in
  exists s,
    stat.add_all (fp := binary32) 32 ([one] ++ S754_nan :: [one])
      (stat.Statistic_default (fp := binary32) false) = Returns s /\
    stat.sum s = S754_nan /\
    stat.average (fp := binary32) s = S754_nan.
Proof.
  intros one.
  destruct (add_all_disabled_returns (fp := binary32) 32
              ([one] ++ S754_nan :: [one])
              (stat.Statistic_default (fp := binary32) false)) as [s Hrun].
  exists s. split; [exact Hrun|].
  destruct (nan_sample_poisons 24 128 32 false [one] [one] _ s Hrun)
    as [Hsum Havg].
  split; [exact Hsum|]. apply Havg.
  vm_compute in Hrun. injection Hrun as <-. vm_compute. discriminate.
Defined.

(** ** [clear] forgets the history *)

(** X9: whatever was called before a [clear()], the accumulator then
    behaves as a new one: from any state, [clear()] followed by [calls2]
    leads where [calls2] alone leads from a default-constructed
    accumulator; so the outcome of [calls1; clear(); calls2] is the
    outcome of [calls2] when [calls1] returns, and it is undefined when
    [calls1] is. *)
Theorem history_before_clear_is_forgotten {T : Type} {fp : floating_point T}
  (count_bits : Z) (_useStdDev : bool) (calls1 calls2 : list stat.call) :
  (forall s : stat.Statistic T _useStdDev,
     stat.run_from count_bits (stat.clear s) calls2
     = stat.run count_bits _useStdDev calls2) /\
  (forall s1 : stat.Statistic T _useStdDev,
     stat.run count_bits _useStdDev calls1 = Returns s1 ->
     stat.run count_bits _useStdDev (calls1 ++ stat.Clear :: calls2) =
     stat.run count_bits _useStdDev calls2) /\
  (stat.run count_bits _useStdDev calls1 = Undefined_behaviour ->
   stat.run count_bits _useStdDev (calls1 ++ stat.Clear :: calls2) =
   Undefined_behaviour).
Proof.
  split; [|split].
  - intros s. rewrite clear_is_default. reflexivity.
  - intros s1 Hrun. unfold stat.run, stat.run_from in *.
    rewrite fold_left_app, Hrun. cbn [fold_left bind stat.step].
    rewrite clear_is_default. reflexivity.
  - intros Hrun. unfold stat.run, stat.run_from in *.
    rewrite fold_left_app, Hrun. apply fold_undefined.
Qed.

Lemma history_before_clear_is_forgotten_witness :
  let one := of_int (floating_point := binary32) 1 in
  stat.run (fp := binary32) 32 false
    ([stat.Add one; stat.Add one] ++ stat.Clear :: [stat.Add one]) =
  stat.run (fp := binary32) 32 false [stat.Add one].
Proof.
  intros one.
  destruct (run_disabled_returns (fp := binary32) 32
              [stat.Add one; stat.Add one]) as [s1 Hrun].
  apply (proj1 (proj2 (history_before_clear_is_forgotten (fp := binary32)
                         32 false [stat.Add one; stat.Add one]
                         [stat.Add one])) s1 Hrun).
Defined.

(** ** The first [add] *)

(** X11: on a default-constructed (or cleared) accumulator, [add(value)]
    returns [value] and leaves it in [sum()], for every value but [-0.0]:
    the sum [0.0 + -0.0] is [+0.0].  No rounding takes place. *)
Theorem first_add_returns_value (prec emax count_bits : Z)
  (_useStdDev : bool) (value : spec_float) :
  value <> S754_zero true ->
  exists s,
    stat.add (fp := ieee prec emax) count_bits value
      (stat.Statistic_default (fp := ieee prec emax) _useStdDev)
    = Returns (value, s) /\
    stat.sum s = value.
Proof.
  intros Hv. eexists. split.
  - rewrite add_spec.
    assert (Hguard : _useStdDev && (1 <? (0 + 1) mod 2 ^ count_bits) = false).
    { destruct _useStdDev; [|reflexivity]. cbn [andb]. apply Z.ltb_ge.
      destruct (Z.eq_dec (2 ^ count_bits) 0) as [E | E].
      - rewrite E, Z.mod_0_r. lia.
      - destruct (Z.le_gt_cases (2 ^ count_bits) 1) as [Hle | Hgt].
        + assert (0 <= 2 ^ count_bits) by (apply Z.pow_nonneg; lia).
          replace (2 ^ count_bits) with 1 by lia. rewrite Z.mod_1_r. lia.
        + rewrite Z.mod_small; lia. }
    cbn [stat._cnt stat._sum stat.Statistic_default]. rewrite Hguard.
    f_equal. f_equal.
    cbn [plus minus of_int ieee binary_normalize].
    destruct value as [[]|s| |s m e]; try contradiction; reflexivity.
  - unfold stat.sum. cbn [after_add stat._sum stat.Statistic_default].
    cbn [plus of_int ieee binary_normalize].
    destruct value as [[]|s| |s m e]; try contradiction; reflexivity.
Qed.

Lemma first_add_returns_value_witness :
  exists s,
    stat.add (fp := binary32) 32 (S754_finite true 12582912 (-23))
      (stat.Statistic_default (fp := binary32) true)
    = Returns (S754_finite true 12582912 (-23), s) /\
    stat.sum s = S754_finite true 12582912 (-23).
Proof.
  apply (first_add_returns_value 24 128 32 true
           (S754_finite true 12582912 (-23))).
  discriminate.
Defined.

(** ** What variance tracking does in the defined executions *)

Section TrackedRuns.

Context {T : Type} {fp : floating_point T}.
Variable count_bits : Z.
Hypothesis two_bits : 2 <= count_bits.

(** With variance tracking, a state that the calls reach by returning has
    seen at most one [add] since the last [clear], and its sum of squares
    difference is still the initial zero. *)
Lemma tracked_run_invariant (calls : list stat.call)
  (s : stat.Statistic T true) :
  stat.run count_bits true calls = Returns s ->
  0 <= stat._cnt _ s <= 1 /\
  stat.ssqdif (stat._extra _ s) = of_int 0.
Proof.
  revert s. induction calls as [|c calls IH] using rev_ind; intros s.
  - intros [= <-]. cbn. split; [lia | reflexivity].
  - rewrite run_snoc.
    destruct (stat.run count_bits true calls) as [s1|]; [|discriminate].
    destruct (IH s1 eq_refl) as [Hc Hq].
    cbn [bind]. destruct c as [value|]; cbn [stat.step].
    + intros Hadd. apply add__returns in Hadd as (-> & Hguard).
      cbn [andb] in Hguard. apply Z.ltb_ge in Hguard.
      rewrite (small_mod count_bits two_bits) in Hguard by lia.
      cbn [after_add stat._cnt stat._extra].
      rewrite (small_mod count_bits two_bits) by lia.
      split; [lia | exact Hq].
    + intros [= <-]. rewrite clear_is_default. cbn.
      split; [lia | reflexivity].
Qed.

End TrackedRuns.

(** X12: [add] is undefined exactly when variance tracking is enabled and
    the incremented counter exceeds 1, where it calls
    [StdDev::ssqdif(value_type)], a value-returning function without a
    [return]; a call that returns leaves the sum of squares difference as
    it was.  So, with a counter of two bits or more, every state that calls
    reach by returning with variance tracking has [count() <= 1] and a sum
    of squares difference still at its initial zero: no defined execution
    computes a variance from two samples. *)
Theorem tracked_add_is_undefined {T : Type} {fp : floating_point T}
  (count_bits : Z) :
  (forall (_useStdDev : bool) (value : T) (s : stat.Statistic T _useStdDev),
     stat.add count_bits value s = Undefined_behaviour <->
     _useStdDev = true /\ 1 < (stat.count s + 1) mod 2 ^ count_bits) /\
  (forall (_useStdDev : bool) (value r : T)
          (s s' : stat.Statistic T _useStdDev),
     stat.add count_bits value s = Returns (r, s') ->
     stat.ssqdif (stat._extra _ s') = stat.ssqdif (stat._extra _ s)) /\
  (2 <= count_bits ->
   forall (calls : list stat.call) (s : stat.Statistic T true),
     stat.run count_bits true calls = Returns s ->
     0 <= stat.count s <= 1 /\
     stat.ssqdif (stat._extra _ s) = of_int 0).
Proof.
  split; [|split].
  - intros b value s. rewrite add_spec. unfold stat.count.
    destruct b; cbn [andb].
    + destruct (1 <? _) eqn:E.
      * apply Z.ltb_lt in E. split; auto.
      * apply Z.ltb_ge in E. split; [discriminate | intros [_ H]; lia].
    + split; [discriminate | intros [H _]; discriminate].
  - intros b value r s s' Hadd.
    apply add_returns in Hadd as (_ & -> & _). reflexivity.
  - intros Hbits calls s Hrun.
    apply (tracked_run_invariant count_bits Hbits calls s Hrun).
Qed.

Lemma tracked_add_is_undefined_witness :
  let one := of_int (floating_point := binary32) 1 in
  exists s,
    stat.run (fp := binary32) 32 true [stat.Add one; stat.Clear; stat.Add one]
    = Returns s /\
    0 <= stat.count s <= 1 /\
    stat.ssqdif (fp := binary32) (stat._extra _ s) = S754_zero false /\
    (exists r s', stat.add (fp := binary32) 32 one
                    (stat.Statistic_default (fp := binary32) true)
                  = Returns (r, s') /\
                  stat.ssqdif (fp := binary32) (stat._extra _ s')
                  = S754_zero false).
Proof.
  intros one.
  destruct (tracked_add_is_undefined (fp := binary32) 32)
    as (_ & Hkeep & Hruns).
  eexists. split; [vm_compute; reflexivity|].
  split; [|split].
  - eapply (Hruns ltac:(lia)
              [stat.Add one; stat.Clear; stat.Add one]).
    vm_compute. reflexivity.
  - eapply (Hruns ltac:(lia)
              [stat.Add one; stat.Clear; stat.Add one]).
    vm_compute. reflexivity.
  - destruct (stat.add (fp := binary32) 32 one
                (stat.Statistic_default (fp := binary32) true))
      as [[r s']|] eqn:Hadd; [|vm_compute in Hadd; discriminate].
    exists r, s'. split; [reflexivity|].
    rewrite (Hkeep true one r _ s' Hadd). reflexivity.
Defined.
